(** * Food search, result cache and meal entries

    A shallow embedding of [searchProductsByName], [cacheSearchResults],
    [generateTempId] and [addFoodToMeal], followed by the diary functions
    [createMeal], [deleteMealItem], [updateMealItemQuantity],
    [getUserMacroGoals] and [setUserMacroGoals] and by [recoverSession] of
    the client module.

    Conventions of the embedding.
    - A JavaScript string is the list of its UTF-16 code units, which is what
      [split('')] and [charCodeAt] observe.
    - The search payload is read at the types the [FoodProduct] interface
      declares: a text field is a string, a numeric field a number, and either
      may be missing ([undefined]) or [null].  Array items are objects.
    - Numbers that are only compared and passed along are rationals (every
      finite double is one), NaN or an infinity.  The character-code sum and
      the clock are naturals: both stay far below 2^53, where double addition
      is exact.  The back-off delay is computed: its product and its sum are
      rounded to the nearest double, as the source's number type does.
    - The search endpoint, the store, [Math.random] and [Date.now] are
      collaborators.  Each is a script indexed by the number of calls made so
      far; the world records those counters, the two tables, the delays slept
      and a journal of the store requests. *)

From Stdlib Require Import List Bool Arith NArith ZArith QArith Qround Qabs
  Qpower Qfield Lia Lqa.
From Stdlib Require Import String Ascii DecimalString DecimalN.
Import ListNotations.

Local Open Scope list_scope.
Local Open Scope nat_scope.

(* ------------------------------------------------------------------ *)
(** ** JavaScript strings and values                                    *)
(* ------------------------------------------------------------------ *)

Module JS.

(** One UTF-16 code unit. *)
Definition char := N.

Definition jsstring := list char.

(** An ASCII literal as code units. *)
Definition lit (s : string) : jsstring :=
  map N_of_ascii (list_ascii_of_string s).

Definition char_eqb (a b : char) : bool := N.eqb a b.

Fixpoint string_eqb (a b : jsstring) : bool :=
  match a, b with
  | [], [] => true
  | x :: a', y :: b' => char_eqb x y && string_eqb a' b'
  | _, _ => false
  end.

(** [hay.startsWith(needle)]. *)
Fixpoint startsWith (hay needle : jsstring) : bool :=
  match needle, hay with
  | [], _ => true
  | _ :: _, [] => false
  | n :: needle', h :: hay' => char_eqb n h && startsWith hay' needle'
  end.

(** [hay.includes(needle)]: the needle occurs at some position. *)
Fixpoint includes (hay needle : jsstring) : bool :=
  startsWith hay needle
  || match hay with
     | [] => false
     | _ :: hay' => includes hay' needle
     end.

(** [s.split('')]: one entry per code unit. *)
Definition split_units (s : jsstring) : list char := s.

(** Number::toString of a non-negative integer below 10^21: its decimal
    digits. *)
Definition Number_toString (n : N) : jsstring :=
  lit (NilEmpty.string_of_uint (N.to_uint n)).

(** A value read where the interface declares a string. *)
Inductive text :=
| TUndefined
| TNull
| TString (s : jsstring).

(** A JavaScript number: a finite value, NaN, or an infinity with its
    sign. *)
Inductive number :=
| Fin (q : Q)
| NaN
| Infinity (negative : bool).

(** A value read where the interface declares a number. *)
Inductive numeric :=
| NUndefined
| NNull
| NNumber (x : number).

(** ToBoolean. *)
Definition truthy (v : text) : bool :=
  match v with
  | TString (_ :: _) => true
  | _ => false
  end.

Definition number_truthy (x : number) : bool :=
  match x with
  | Fin q => negb (Qeq_bool q 0)
  | NaN => false
  | Infinity _ => true
  end.

(** ToString, as a template literal applies it. *)
Definition ToString (v : text) : jsstring :=
  match v with
  | TUndefined => lit "undefined"
  | TNull => lit "null"
  | TString s => s
  end.

(** [a || b] between two values. *)
Definition or_text (a b : text) : text :=
  if truthy a then a else b.

(** [v || 'literal']. *)
Definition or_string (v : text) (d : jsstring) : jsstring :=
  match v with
  | TString (c :: s) => c :: s
  | _ => d
  end.

(** [v || null]. *)
Definition or_null (v : text) : option jsstring :=
  match v with
  | TString (c :: s) => Some (c :: s)
  | _ => None
  end.

(** [v || 0]. *)
Definition or_zero (v : numeric) : number :=
  match v with
  | NNumber x => if number_truthy x then x else Fin 0
  | _ => Fin 0
  end.

(** [x > 0]. *)
Definition gt_zero (x : number) : bool :=
  match x with
  | Fin q => negb (Qle_bool q 0)
  | NaN => false
  | Infinity negative => negb negative
  end.

Definition text_eqb (a b : text) : bool :=
  match a, b with
  | TUndefined, TUndefined => true
  | TNull, TNull => true
  | TString s, TString t => string_eqb s t
  | _, _ => false
  end.

End JS.
Import JS.

(* ------------------------------------------------------------------ *)
(** ** Double arithmetic                                                *)
(* ------------------------------------------------------------------ *)

(** The value of a double is a rational; an operation on doubles is the
    exact operation followed by rounding to the nearest double, the one
    with the even significand of two that are equally near.  Results here
    stay far below the largest double, so overflow is left out. *)
Module Double.

(** [2^k], for an integer [k] of either sign. *)
Definition two_power (k : Z) : Q :=
  if (0 <=? k)%Z then inject_Z (2 ^ k) else Qinv (inject_Z (2 ^ (- k))).

(** The integer nearest to [t]; halfway, the even one. *)
Definition nearest_even (t : Q) : Z :=
  let f := Qfloor t in
  match Qcompare (t - inject_Z f) (1 # 2) with
  | Lt => f
  | Gt => (f + 1)%Z
  | Eq => if Z.even f then f else (f + 1)%Z
  end.

(** For [x > 0], the [e] with [2^e <= x < 2^(e+1)]: the difference of the
    bit lengths of numerator and denominator, or one less. *)
Definition exponent (x : Q) : Z :=
  let d := (Z.log2 (Qnum x) - Z.log2 (Zpos (Qden x)))%Z in
  if Qle_bool (two_power d) x then d else (d - 1)%Z.

(** Rounding of [x > 0] to a significand of 53 bits; below [2^-1022] the
    spacing stays that of the subnormal numbers, [2^-1074]. *)
Definition round_positive (x : Q) : Q :=
  let e := Z.max (exponent x) (-1022) in
  Qred (inject_Z (nearest_even (x * two_power (52 - e)))
        * two_power (e - 52)).

Definition round (x : Q) : Q :=
  match Qcompare x 0 with
  | Eq => 0%Q
  | Gt => round_positive x
  | Lt => (- round_positive (- x))%Q
  end.

(** [x * y] and [x + y] on doubles. *)
Definition mul (x y : Q) : Q := round (x * y).
Definition add (x y : Q) : Q := round (x + y).

End Double.

(* ------------------------------------------------------------------ *)
(** ** Data model                                                       *)
(* ------------------------------------------------------------------ *)

(** One item of the array the search endpoint answers with ([any] in the
    source; the fields the code reads). *)
Module Raw.
Record t := {
  name : text;
  brand : text;
  calories : numeric;
  protein : numeric;
  fat : numeric;
  carbs : numeric;
  sugar : numeric;
  image_url : text;
  off_id : text;
  barcode : text
}.
End Raw.

(** [interface FoodProduct]. *)
Module FoodProduct.
Record t := {
  name : text;
  brand : jsstring;
  calories : number;
  protein : number;
  fat : number;
  carbs : number;
  sugar : numeric;
  image_url : jsstring;
  off_id : text
}.
End FoodProduct.

(** A row of the table [livsmedelskache]. *)
Module CacheRow.
Record t := {
  off_id : text;
  produktnamn : text;
  varumarke : option jsstring;
  energi_kcal_100g : number;
  protein_100g : number;
  kolhydrater_100g : number;
  fett_100g : number;
  bild_url : option jsstring
}.
End CacheRow.

(** A row of the table [maltidsinlagg]. *)
Module MealEntry.
Record t := {
  daglig_logg_id : jsstring;
  maltidstyp : jsstring;
  off_id : text;
  custom_namn : text;
  antal_gram : number
}.
End MealEntry.

(** A caught or thrown value, as far as the code looks at it: [err.message]. *)
Record Thrown := { err_message : text }.

(** [new Error(msg)]. *)
Definition Error (msg : jsstring) : Thrown := {| err_message := TString msg |}.

(** The [error] member of the endpoint's answer. *)
Record EndpointError := {
  status : option Z;
  message : text
}.

(** The [data] member of the endpoint's answer. *)
Inductive Payload :=
| NoData                              (* null, undefined or another falsy value *)
| NotArray                            (* truthy, but not an array *)
| ArrayOf (items : list Raw.t).

(** What one call of [supabase.functions.invoke] does. *)
Inductive InvokeOutcome :=
| Rejects (err : Thrown)
| Resolves (data : Payload) (error : option EndpointError).

(** What the store does with one request. *)
Inductive Fault :=
| Healthy                             (* the request is carried out *)
| Fails (e : Thrown)                  (* resolves with [{ data: null, error }] *)
| Crashes (e : Thrown).               (* the promise rejects *)

(** The store requests the code sends, with what came back. *)
Inductive StoreEvent :=
| Lookup (id : text) (found : bool)
| LookupCrashed (id : text)
| InsertCache (row : CacheRow.t) (stored : bool)
| InsertMeal (row : MealEntry.t) (stored : bool).

(** The collaborators' scripts. *)
Record Env := {
  functions_invoke : jsstring -> nat -> InvokeOutcome;
  Math_random : nat -> Q;
  Date_now : nat -> N;
  store_fault : nat -> Fault;
  toLowerCase : jsstring -> jsstring
}.

Record World := {
  invoked : nat;
  sampled : nat;
  clocked : nat;
  requested : nat;
  livsmedelskache : list CacheRow.t;
  maltidsinlagg : list MealEntry.t;
  slept : list Q;
  journal : list StoreEvent
}.

Definition fresh : World :=
  {| invoked := 0; sampled := 0; clocked := 0; requested := 0;
     livsmedelskache := []; maltidsinlagg := []; slept := []; journal := [] |}.

(* ------------------------------------------------------------------ *)
(** ** Effects: world passing with exceptions                           *)
(* ------------------------------------------------------------------ *)

Inductive outcome (A : Type) :=
| Done (a : A)
| Throws (e : Thrown).
Arguments Done {A} a.
Arguments Throws {A} e.

Definition M (A : Type) := World -> outcome A * World.

Definition ret {A} (a : A) : M A := fun w => (Done a, w).

Definition throw {A} (e : Thrown) : M A := fun w => (Throws e, w).

Definition bind {A B} (c : M A) (k : A -> M B) : M B :=
  fun w =>
    match c w with
    | (Done a, w') => k a w'
    | (Throws e, w') => (Throws e, w')
    end.

(** [try { body } catch (err) { handler }]. *)
Definition try_catch {A} (body : M A) (handler : Thrown -> M A) : M A :=
  fun w =>
    match body w with
    | (Done a, w') => (Done a, w')
    | (Throws e, w') => handler e w'
    end.

Declare Scope js_scope.
Delimit Scope js_scope with js.
Notation "x <- c ;; k" := (bind c (fun x => k))
  (at level 61, c at next level, right associativity) : js_scope.
Notation "c ;; k" := (bind c (fun _ => k))
  (at level 61, right associativity) : js_scope.
Local Open Scope js_scope.

(** [data.map(f)], for an [f] with effects. *)
Fixpoint mapM {A B} (f : A -> M B) (l : list A) : M (list B) :=
  match l with
  | [] => ret []
  | x :: l' => y <- f x ;; ys <- mapM f l' ;; ret (y :: ys)
  end.

(* ------------------------------------------------------------------ *)
(** ** The collaborators, as seen from the code                         *)
(* ------------------------------------------------------------------ *)

Section Program.

Variable env : Env.

(** The world after one more call of the endpoint. *)
Definition called (w : World) : World :=
  {| invoked := S (invoked w); sampled := sampled w;
     clocked := clocked w; requested := requested w;
     livsmedelskache := livsmedelskache w;
     maltidsinlagg := maltidsinlagg w;
     slept := slept w; journal := journal w |}.

(** [await supabase.functions.invoke('food-search', { body: { query } })]. *)
Definition invoke (query : jsstring) : M (Payload * option EndpointError) :=
  fun w =>
    match functions_invoke env query (invoked w) with
    | Rejects err => (Throws err, called w)
    | Resolves data error => (Done (data, error), called w)
    end.

(** [Math.random()]. *)
Definition random : M Q :=
  fun w =>
    (Done (Math_random env (sampled w)),
     {| invoked := invoked w; sampled := S (sampled w);
        clocked := clocked w; requested := requested w;
        livsmedelskache := livsmedelskache w;
        maltidsinlagg := maltidsinlagg w;
        slept := slept w; journal := journal w |}).

(** [Date.now()]. *)
Definition now : M N :=
  fun w =>
    (Done (Date_now env (clocked w)),
     {| invoked := invoked w; sampled := sampled w;
        clocked := S (clocked w); requested := requested w;
        livsmedelskache := livsmedelskache w;
        maltidsinlagg := maltidsinlagg w;
        slept := slept w; journal := journal w |}).

(** [await delay(ms)]. *)
Definition delay (ms : Q) : M unit :=
  fun w =>
    (Done tt,
     {| invoked := invoked w; sampled := sampled w;
        clocked := clocked w; requested := requested w;
        livsmedelskache := livsmedelskache w;
        maltidsinlagg := maltidsinlagg w;
        slept := slept w ++ [ms]; journal := journal w |}).

(** The world after one store request: the tables as given, the request
    counted and journalled. *)
Definition answered (w : World) (cache : list CacheRow.t)
    (meals : list MealEntry.t) (ev : StoreEvent) : World :=
  {| invoked := invoked w; sampled := sampled w;
     clocked := clocked w; requested := S (requested w);
     livsmedelskache := cache; maltidsinlagg := meals;
     slept := slept w; journal := journal w ++ [ev] |}.

Definition matching (id : text) (rows : list CacheRow.t) : list CacheRow.t :=
  filter (fun r => text_eqb (CacheRow.off_id r) id) rows.

(** [from('livsmedelskache').select('off_id').eq('off_id', id).maybeSingle()],
    reduced to whether [data] is non-null: one matching row gives it; no row
    gives [null]; several rows, or a failed request, give [null] with an
    error the code does not read. *)
Definition select_maybeSingle (id : text) : M bool :=
  fun w =>
    match store_fault env (requested w) with
    | Crashes e =>
        (Throws e, answered w (livsmedelskache w) (maltidsinlagg w)
                     (LookupCrashed id))
    | Fails _ =>
        (Done false, answered w (livsmedelskache w) (maltidsinlagg w)
                       (Lookup id false))
    | Healthy =>
        let found := match matching id (livsmedelskache w) with
                     | [_] => true
                     | _ => false
                     end in
        (Done found, answered w (livsmedelskache w) (maltidsinlagg w)
                       (Lookup id found))
    end.

(** [from('livsmedelskache').insert(row)]; answers the [error] member.  The
    table itself enforces nothing: a carried-out insert appends the row. *)
Definition insert_cache (row : CacheRow.t) : M (option Thrown) :=
  fun w =>
    match store_fault env (requested w) with
    | Crashes e =>
        (Throws e, answered w (livsmedelskache w) (maltidsinlagg w)
                     (InsertCache row false))
    | Fails e =>
        (Done (Some e), answered w (livsmedelskache w) (maltidsinlagg w)
                          (InsertCache row false))
    | Healthy =>
        (Done None, answered w (livsmedelskache w ++ [row]) (maltidsinlagg w)
                      (InsertCache row true))
    end.

(** [from('maltidsinlagg').insert(row)]. *)
Definition insert_meal (row : MealEntry.t) : M (option Thrown) :=
  fun w =>
    match store_fault env (requested w) with
    | Crashes e =>
        (Throws e, answered w (livsmedelskache w) (maltidsinlagg w)
                     (InsertMeal row false))
    | Fails e =>
        (Done (Some e), answered w (livsmedelskache w) (maltidsinlagg w)
                          (InsertMeal row false))
    | Healthy =>
        (Done None, answered w (livsmedelskache w) (maltidsinlagg w ++ [row])
                      (InsertMeal row true))
    end.

(* ---------------------------------------------------------------- *)
(** ** generateTempId                                                 *)
(* ---------------------------------------------------------------- *)

(** [s.split('').reduce((acc, char) => acc + char.charCodeAt(0), 0)]. *)
Definition checksum (s : jsstring) : N :=
  fold_left (fun acc char => (acc + char)%N) (split_units s) 0%N.

(** The body of [generateTempId], at the instant [Date.now()] answers. *)
Definition tempIdAt (name brand : text) (timestamp : N) : jsstring :=
  let combinedString :=
    ToString name ++ or_string brand [] ++ Number_toString timestamp in
  lit "temp_" ++ Number_toString (checksum combinedString).

Definition generateTempId (name brand : text) : M jsstring :=
  timestamp <- now ;;
  ret (tempIdAt name brand timestamp).

(* ---------------------------------------------------------------- *)
(** ** cacheSearchResults                                             *)
(* ---------------------------------------------------------------- *)

Definition cache_row_of (off_id : text) (product : Raw.t) : CacheRow.t :=
  {| CacheRow.off_id := off_id;
     CacheRow.produktnamn := Raw.name product;
     CacheRow.varumarke := or_null (Raw.brand product);
     CacheRow.energi_kcal_100g := or_zero (Raw.calories product);
     CacheRow.protein_100g := or_zero (Raw.protein product);
     CacheRow.kolhydrater_100g := or_zero (Raw.carbs product);
     CacheRow.fett_100g := or_zero (Raw.fat product);
     CacheRow.bild_url := or_null (Raw.image_url product) |}.

(** The [for (const product of products)] loop. *)
Fixpoint cache_each (products : list Raw.t) : M unit :=
  match products with
  | [] => ret tt
  | product :: rest =>
      if negb (truthy (Raw.off_id product))
         && negb (truthy (Raw.barcode product))
      then cache_each rest
      else
        let off_id := or_text (Raw.off_id product) (Raw.barcode product) in
        existingProduct <- select_maybeSingle off_id ;;
        if existingProduct then cache_each rest
        else
          insert_cache (cache_row_of off_id product) ;;
          cache_each rest
  end.

Definition cacheSearchResults (products : list Raw.t) : M unit :=
  try_catch (cache_each products) (fun _ => ret tt).

(* ---------------------------------------------------------------- *)
(** ** searchProductsByName                                           *)
(* ---------------------------------------------------------------- *)

Definition maxRetries : nat := 3.
Definition baseDelay : Z := 1000.

(** The message literals; 246 is o-umlaut, 229 a-ring. *)
Definition msg_search_failed_prefix : jsstring :=      (* 'Sokningen misslyckades: ' *)
  lit "S" ++ [246%N] ++ lit "kningen misslyckades: ".
Definition msg_invalid_response : jsstring :=          (* 'Ogiltig respons fran servern' *)
  lit "Ogiltig respons fr" ++ [229%N] ++ lit "n servern".
Definition msg_cannot_connect : jsstring :=
  lit "Kunde inte ansluta till servern. Kontrollera din internetanslutning och f"
  ++ [246%N] ++ lit "rs" ++ [246%N] ++ lit "k igen.".
Definition msg_generic : jsstring :=
  lit "Ett fel uppstod vid s" ++ [246%N] ++ lit "kning. F" ++ [246%N]
  ++ lit "rs" ++ [246%N] ++ lit "k igen om en stund.".

(** [error.status === 404]. *)
Definition status_is_404 (error : EndpointError) : bool :=
  match status error with
  | Some s => Z.eqb s 404
  | None => false
  end.

(** The object literal of the [data.map] callback. *)
Definition normalize (item : Raw.t) : M FoodProduct.t :=
  off_id <- (if truthy (Raw.off_id item) then ret (Raw.off_id item)
             else if truthy (Raw.barcode item) then ret (Raw.barcode item)
             else id <- generateTempId (Raw.name item) (Raw.brand item) ;;
                  ret (TString id)) ;;
  ret {| FoodProduct.name := Raw.name item;
         FoodProduct.brand := or_string (Raw.brand item) [];
         FoodProduct.calories := or_zero (Raw.calories item);
         FoodProduct.protein := or_zero (Raw.protein item);
         FoodProduct.fat := or_zero (Raw.fat item);
         FoodProduct.carbs := or_zero (Raw.carbs item);
         FoodProduct.sugar := Raw.sugar item;
         FoodProduct.image_url := or_string (Raw.image_url item) [];
         FoodProduct.off_id := off_id |}.

(** The [try] block of one attempt: it returns from the function or
    throws. *)
Definition attempt_body (query : jsstring) : M (list FoodProduct.t) :=
  answer <- invoke query ;;
  let '(data, error) := answer in
  match error with
  | Some error =>
      if status_is_404 error then ret []
      else throw (Error (msg_search_failed_prefix ++ ToString (message error)))
  | None =>
      match data with
      | ArrayOf items =>
          cacheSearchResults items ;;
          mapM normalize items
      | _ => throw (Error msg_invalid_response)
      end
  end.

(** The last attempt's [catch]: classify, then return or throw. *)
Definition exhausted (err : Thrown) : M (list FoodProduct.t) :=
  let message := err_message err in
  if truthy message && includes (ToString message) (lit "404")
  then ret []
  else if truthy message
          && (includes (ToString message) (lit "Network")
              || includes (ToString message) (lit "Failed to fetch")
              || includes (ToString message) (lit "HTTP error"))
  then throw (Error msg_cannot_connect)
  else throw (Error (or_string message msg_generic)).

(** [baseDelay * Math.pow(2, attempt - 1) + jitter], in doubles; the power
    of two is exact. *)
Definition waitTime (attempt : nat) (jitter : Q) : Q :=
  Double.add
    (Double.mul (inject_Z baseDelay) (inject_Z (2 ^ Z.of_nat (attempt - 1))))
    jitter.

(** An earlier attempt's [catch]: back off. *)
Definition back_off (attempt : nat) : M unit :=
  r <- random ;;
  let jitter := Double.mul r (inject_Z 200) in
  delay (waitTime attempt jitter).

(** [for (let attempt = 1; attempt <= maxRetries; attempt++)], unrolled over
    the iterations still possible; [return []] follows the loop. *)
Fixpoint attempts_from (attempt : nat) (iterations : nat) (query : jsstring)
    : M (list FoodProduct.t) :=
  match iterations with
  | O => ret []
  | S iterations' =>
      if maxRetries <? attempt then ret []
      else
        try_catch (attempt_body query)
          (fun err =>
             if attempt =? maxRetries then exhausted err
             else back_off attempt ;;
                  attempts_from (S attempt) iterations' query)
  end.

Definition searchProductsByName (query : jsstring) : M (list FoodProduct.t) :=
  attempts_from 1 maxRetries query.

(* ---------------------------------------------------------------- *)
(** ** addFoodToMeal                                                  *)
(* ---------------------------------------------------------------- *)

Definition cache_row_of_product (off_id : text) (product : FoodProduct.t)
    : CacheRow.t :=
  {| CacheRow.off_id := off_id;
     CacheRow.produktnamn := FoodProduct.name product;
     CacheRow.varumarke := or_null (TString (FoodProduct.brand product));
     CacheRow.energi_kcal_100g := or_zero (NNumber (FoodProduct.calories product));
     CacheRow.protein_100g := or_zero (NNumber (FoodProduct.protein product));
     CacheRow.kolhydrater_100g := or_zero (NNumber (FoodProduct.carbs product));
     CacheRow.fett_100g := or_zero (NNumber (FoodProduct.fat product));
     CacheRow.bild_url := or_null (TString (FoodProduct.image_url product)) |}.

(** [quantityGrams > 0 ? quantityGrams : 100]. *)
Definition valid_quantity (quantityGrams : number) : number :=
  if gt_zero quantityGrams then quantityGrams else Fin (inject_Z 100).

(** [let off_id = product.off_id; if (!off_id) { ... }]: a product without
    identifier gets a synthesized one and is sent to the cache, the answer
    to that insert unread. *)
Definition ensure_off_id (product : FoodProduct.t) : M text :=
  if negb (truthy (FoodProduct.off_id product))
  then
    id <- generateTempId (FoodProduct.name product)
            (TString (FoodProduct.brand product)) ;;
    insert_cache (cache_row_of_product (TString id) product) ;;
    ret (TString id)
  else ret (FoodProduct.off_id product).

(** [mealType] is [None] when the caller leaves it out. *)
Definition addFoodToMeal (logId : jsstring) (product : FoodProduct.t)
    (quantityGrams : number) (mealType : option jsstring) : M unit :=
  let mealType := match mealType with
                  | Some m => m
                  | None => lit "frukost"
                  end in
  try_catch
    (let quantity := valid_quantity quantityGrams in
     off_id <- ensure_off_id product ;;
     error <- insert_meal
                {| MealEntry.daglig_logg_id := logId;
                   MealEntry.maltidstyp := toLowerCase env mealType;
                   MealEntry.off_id := off_id;
                   MealEntry.custom_namn := FoodProduct.name product;
                   MealEntry.antal_gram := quantity |} ;;
     match error with
     | Some e => throw e
     | None => ret tt
     end)
    (fun error => throw error).

End Program.

(* ------------------------------------------------------------------ *)
(** ** Vocabulary of the statements                                     *)
(* ------------------------------------------------------------------ *)

(** *** Attempts *)

(** What the [catch] of an attempt receives, given what the endpoint did;
    [None] when the attempt returns from the function instead. *)
Definition caught (o : InvokeOutcome) : option Thrown :=
  match o with
  | Rejects err => Some err
  | Resolves data error =>
      match error with
      | Some error =>
          if status_is_404 error then None
          else Some (Error (msg_search_failed_prefix
                            ++ ToString (message error)))
      | None =>
          match data with
          | ArrayOf _ => None
          | _ => Some (Error msg_invalid_response)
          end
      end
  end.

(** The attempt ends in its [catch]. *)
Definition attempt_fails (o : InvokeOutcome) : bool :=
  match caught o with
  | Some _ => true
  | None => false
  end.

(** The endpoint answers with an error whose status is 404. *)
Definition answers_404 (o : InvokeOutcome) : bool :=
  match o with
  | Rejects _ => false
  | Resolves _ error =>
      match error with
      | Some error => status_is_404 error
      | None => false
      end
  end.

(** The caught error has a message, and [needle] occurs in it. *)
Definition message_includes (err : Thrown) (needle : string) : bool :=
  truthy (err_message err)
  && includes (ToString (err_message err)) (lit needle).

(** The message tests of the last [catch]. *)
Definition mentions_404 (err : Thrown) : bool := message_includes err "404".

(** A connectivity, fetch or HTTP-transport failure, going by the message. *)
Definition network_class (err : Thrown) : bool :=
  message_includes err "Network"
  || message_includes err "Failed to fetch"
  || message_includes err "HTTP error".

(** What the last [catch] makes of the error it receives. *)
Definition verdict (err : Thrown) : outcome (list FoodProduct.t) :=
  if mentions_404 err then Done []
  else if network_class err then Throws (Error msg_cannot_connect)
       else Throws (Error (or_string (err_message err) msg_generic)).

(** The sequence a call hands back, if it returns. *)
Definition returned (r : outcome (list FoodProduct.t)) : list FoodProduct.t :=
  match r with
  | Done products => products
  | Throws _ => []
  end.

(** *** Worlds *)

(** The world after the back-off that follows a failed [attempt]. *)
Definition backed_off (env : Env) (attempt : nat) (w : World) : World :=
  {| invoked := invoked w; sampled := S (sampled w);
     clocked := clocked w; requested := requested w;
     livsmedelskache := livsmedelskache w;
     maltidsinlagg := maltidsinlagg w;
     slept := slept w
              ++ [waitTime attempt
                    (Double.mul (Math_random env (sampled w))
                       (inject_Z 200))];
     journal := journal w |}.

(** What a call leaves alone when it only talks to the store. *)
Definition outside_store (w : World) : nat * nat * nat * list Q :=
  (invoked w, sampled w, clocked w, slept w).

(** What a call leaves alone when it only reads the clock. *)
Definition outside_clock (w : World)
    : nat * nat * nat * list CacheRow.t * list MealEntry.t * list Q
      * list StoreEvent :=
  (invoked w, sampled w, requested w, livsmedelskache w, maltidsinlagg w,
   slept w, journal w).

(** From [w] to [w'] only the store moved: the journal grew by [events], the
    cache by the rows [added]. *)
Definition store_grew (w w' : World) (events : list StoreEvent)
    (added : list CacheRow.t) : Prop :=
  journal w' = journal w ++ events
  /\ livsmedelskache w' = livsmedelskache w ++ added
  /\ maltidsinlagg w' = maltidsinlagg w
  /\ outside_store w' = outside_store w.

(** The same collaborators, with another script for the store's faults. *)
Definition with_faults (env : Env) (faults : nat -> Fault) : Env :=
  {| functions_invoke := functions_invoke env;
     Math_random := Math_random env;
     Date_now := Date_now env;
     store_fault := faults;
     toLowerCase := toLowerCase env |}.

(** Two sets of collaborators that differ at most in the store. *)
Definition same_but_store (env1 env2 : Env) : Prop :=
  (forall query k,
      functions_invoke env1 query k = functions_invoke env2 query k)
  /\ (forall k, Math_random env1 k = Math_random env2 k)
  /\ (forall k, Date_now env1 k = Date_now env2 k).

(** *** Back-off *)

(** [Math.random()] answers in [0, 1). *)
Definition unit_interval (env : Env) : Prop :=
  forall k, (0 <= Math_random env k /\ Math_random env k < 1)%Q.

(** The delays of a call that backs off [n] times, the draws starting at
    [first]. *)
Definition backoff_waits (env : Env) (first n : nat) : list Q :=
  map (fun i => waitTime (S i)
                  (Double.mul (Math_random env (i + first)) (inject_Z 200)))
      (seq 0 n).

(** The time slept over a list of delays. *)
Definition total (waits : list Q) : Q := fold_right Qplus 0%Q waits.

(** The [i]-th back-off (counted from 0) lasts at least [1000 * 2^i] ms and
    at most 200 ms more. *)
Definition in_backoff_window (i : nat) (wait : Q) : Prop :=
  (inject_Z (1000 * 2 ^ Z.of_nat i) <= wait
   /\ wait <= inject_Z (1000 * 2 ^ Z.of_nat i) + inject_Z 200)%Q.

(** *** The cache *)

(** A search result carries a canonical identifier. *)
Definition has_identifier (product : Raw.t) : bool :=
  truthy (Raw.off_id product) || truthy (Raw.barcode product).

(** The canonical identifier of a search result: [off_id || barcode]. *)
Definition canonical_id (product : Raw.t) : text :=
  or_text (Raw.off_id product) (Raw.barcode product).

(** Every insert into the cache directly follows a lookup of the same
    identifier that gave the code no row ([found] is false: no row matched,
    several did, or the lookup resolved with an error), and nothing else is
    sent. *)
Fixpoint guarded_inserts (events : list StoreEvent) : bool :=
  match events with
  | [] => true
  | Lookup id false :: InsertCache row _ :: rest =>
      text_eqb (CacheRow.off_id row) id && guarded_inserts rest
  | Lookup _ _ :: rest => guarded_inserts rest
  | LookupCrashed _ :: rest => guarded_inserts rest
  | InsertCache _ _ :: _ => false
  | InsertMeal _ _ :: _ => false
  end.

(** *** Records and quantities *)

(** The sum of a string's character codes. *)
Definition code_sum (s : jsstring) : N := fold_right N.add 0%N s.

(** The raw item has no value for a field: it is missing or [null]. *)
Definition missing (v : text) : Prop := v = TUndefined \/ v = TNull.
Definition missing_number (v : numeric) : Prop := v = NUndefined \/ v = NNull.

(** The normalization postcondition of one returned record against the raw
    item it comes from. *)
Definition normalized (item : Raw.t) (p : FoodProduct.t) : Prop :=
  (missing_number (Raw.calories item) -> FoodProduct.calories p = Fin 0)
  /\ (missing_number (Raw.protein item) -> FoodProduct.protein p = Fin 0)
  /\ (missing_number (Raw.fat item) -> FoodProduct.fat p = Fin 0)
  /\ (missing_number (Raw.carbs item) -> FoodProduct.carbs p = Fin 0)
  /\ (missing (Raw.brand item) -> FoodProduct.brand p = [])
  /\ (missing (Raw.image_url item) -> FoodProduct.image_url p = [])
  /\ (exists id, FoodProduct.off_id p = TString id /\ id <> [])
  /\ (truthy (Raw.off_id item) = true ->
      FoodProduct.off_id p = Raw.off_id item)
  /\ (truthy (Raw.off_id item) = false -> truthy (Raw.barcode item) = true ->
      FoodProduct.off_id p = Raw.barcode item)
  /\ (truthy (Raw.off_id item) = false -> truthy (Raw.barcode item) = false ->
      exists timestamp,
        FoodProduct.off_id p =
        TString (tempIdAt (Raw.name item) (Raw.brand item) timestamp)).

(** What the meal entry must hold for a requested quantity; the conditional
    sends NaN, which is neither positive nor non-positive, to the default
    too. *)
Definition stored_as_requested (quantityGrams stored : number) : Prop :=
  match quantityGrams with
  | Fin x => ((0 < x)%Q -> stored = Fin x)
             /\ ((x <= 0)%Q -> stored = Fin (inject_Z 100))
  | NaN => stored = Fin (inject_Z 100)
  | Infinity false => stored = Infinity false
  | Infinity true => stored = Fin (inject_Z 100)
  end.

(** *** Sample collaborators and search results *)

(** A clock that stands still, a quiet store, an endpoint that always
    answers [answer]. *)
Definition steady (answer : InvokeOutcome) : Env :=
  {| functions_invoke := fun _ _ => answer;
     Math_random := fun _ => 0%Q;
     Date_now := fun _ => 1700000000000%N;
     store_fault := fun _ => Healthy;
     toLowerCase := fun s => s |}.

(** Three refusals in a row, the last one a transport failure. *)
Definition offline : Env :=
  {| functions_invoke := fun _ _ => Rejects (Error (lit "Network request failed"));
     Math_random := fun k => (1 # 2)%Q;
     Date_now := fun _ => 1700000000000%N;
     store_fault := fun _ => Healthy;
     toLowerCase := fun s => s |}.

(** Two server errors, then a 404 status. *)
Definition late_not_found : Env :=
  {| functions_invoke :=
       fun _ k =>
         if k <? 2
         then Resolves NoData
                (Some {| status := Some 500%Z;
                         message := TString (lit "Internal Server Error") |})
         else Resolves NoData
                (Some {| status := Some 404%Z;
                         message := TString (lit "Not Found") |});
     Math_random := fun k => (1 # 4)%Q;
     Date_now := fun _ => 1700000000000%N;
     store_fault := fun _ => Healthy;
     toLowerCase := fun s => s |}.

(** A server error, status 500, whose text happens to contain "404". *)
Definition slow_server : Env :=
  steady (Resolves NoData
            (Some {| status := Some 500%Z;
                     message := TString (lit "timeout after 4045 ms") |})).

(** The draw [1 - 2^-52], the largest below 1 on a grid of 52 bits. *)
Definition last_draw : Q := 4503599627370495 # 4503599627370496.

(** Three refusals in a row, and every draw just below 1. *)
Definition offline_late_draws : Env :=
  {| functions_invoke := fun _ _ => Rejects (Error (lit "Network request failed"));
     Math_random := fun _ => last_draw;
     Date_now := fun _ => 1700000000000%N;
     store_fault := fun _ => Healthy;
     toLowerCase := fun s => s |}.

(** The search result [{ name: "Banana", calories: 89 }]. *)
Definition banana : Raw.t :=
  {| Raw.name := TString (lit "Banana"); Raw.brand := TUndefined;
     Raw.calories := NNumber (Fin (inject_Z 89));
     Raw.protein := NUndefined; Raw.fat := NUndefined;
     Raw.carbs := NUndefined; Raw.sugar := NUndefined;
     Raw.image_url := TUndefined; Raw.off_id := TUndefined;
     Raw.barcode := TUndefined |}.

(** A search result with a barcode only. *)
Definition oat_milk : Raw.t :=
  {| Raw.name := TString (lit "Oat milk"); Raw.brand := TString (lit "Oatly");
     Raw.calories := NNumber (Fin (inject_Z 46));
     Raw.protein := NNumber (Fin (inject_Z 1)); Raw.fat := NNull;
     Raw.carbs := NUndefined; Raw.sugar := NUndefined;
     Raw.image_url := TNull; Raw.off_id := TString [];
     Raw.barcode := TString (lit "7394376616037") |}.

Ltac split_conj :=
  repeat match goal with
         | |- _ /\ _ => split
         end.

(* ------------------------------------------------------------------ *)
(** ** The food diary: daily logs, meal items and macro goals           *)
(* ------------------------------------------------------------------ *)

(** [createMeal], [deleteMealItem], [updateMealItemQuantity],
    [getUserMacroGoals] and [setUserMacroGoals] talk to the signed-in user
    and to three tables whose rows carry keys.  They get a world of their
    own: the tables, and counters for the calls made to the auth client, the
    clock and the store.  What the schema would say and the source does not
    is written next to the request it concerns. *)
Module Diary.

(** The [user] member of [auth.getUser()]'s answer, as far as it is read. *)
Record User := { id : jsstring }.

(** What one call of [supabase.auth.getUser()] does. *)
Inductive AuthAnswer :=
| NoUser                              (* [user] is null *)
| SignedIn (user : User)
| AuthRejects (e : Thrown).

(** A row of [daglig_matlogg]. *)
Record DailyLog := {
  log_id : jsstring;
  user_id : jsstring;
  loggdatum : jsstring
}.

(** A row of [maltidsinlagg] with its key. *)
Record MealItem := {
  item_id : jsstring;
  entry : MealEntry.t
}.

(** The object [getUserMacroGoals] returns. *)
Record MacroGoals := {
  kalorier_kcal : number;
  protein_g : number;
  kolhydrater_g : number;
  fett_g : number
}.

(** A row of [makro_mal]. *)
Record MacroRow := {
  goal_user_id : jsstring;
  goals : MacroGoals;
  updated_at : N
}.

(** The collaborators' scripts.  [toISODay] stands for
    [d.toISOString().split('T')[0]] on a valid date given in epoch
    milliseconds, [generated_id k] for the key the store gives a row that
    request [k] inserts, [several_rows] for the error of [maybeSingle] when
    more than one row matches. *)
Record Env := {
  auth_getUser : nat -> AuthAnswer;
  new_Date : nat -> N;
  toISODay : N -> jsstring;
  toLowerCase : jsstring -> jsstring;
  store_fault : nat -> Fault;
  generated_id : nat -> jsstring;
  several_rows : Thrown
}.

Record State := {
  asked : nat;                        (* calls of [auth.getUser] *)
  dated : nat;                        (* [new Date()] evaluated *)
  sent : nat;                         (* requests sent to the store *)
  daglig_matlogg : list DailyLog;
  maltidsinlagg : list MealItem;
  makro_mal : list MacroRow
}.

Definition D (A : Type) := State -> outcome A * State.

Definition ret {A} (a : A) : D A := fun s => (Done a, s).

Definition throw {A} (e : Thrown) : D A := fun s => (Throws e, s).

Definition bind {A B} (c : D A) (k : A -> D B) : D B :=
  fun s =>
    match c s with
    | (Done a, s') => k a s'
    | (Throws e, s') => (Throws e, s')
    end.

(** [try { body } catch (error) { handler }]. *)
Definition try_catch {A} (body : D A) (handler : Thrown -> D A) : D A :=
  fun s =>
    match body s with
    | (Done a, s') => (Done a, s')
    | (Throws e, s') => handler e s'
    end.

Declare Scope diary_scope.
Delimit Scope diary_scope with diary.
Notation "x <- c ;; k" := (bind c (fun x => k))
  (at level 61, c at next level, right associativity) : diary_scope.
Local Open Scope diary_scope.

(** The [{ data, error }] a request resolves with. *)
Inductive Answer (A : Type) :=
| Data (data : A)
| Failed (error : Thrown).
Arguments Data {A} data.
Arguments Failed {A} error.

Section Requests.

Variable env : Env.

(** [await supabase.auth.getUser()], down to [user]. *)
Definition getUser : D (option User) :=
  fun s =>
    let s' := {| asked := S (asked s); dated := dated s; sent := sent s;
                 daglig_matlogg := daglig_matlogg s;
                 maltidsinlagg := maltidsinlagg s;
                 makro_mal := makro_mal s |} in
    match auth_getUser env (asked s) with
    | NoUser => (Done None, s')
    | SignedIn user => (Done (Some user), s')
    | AuthRejects e => (Throws e, s')
    end.

(** [new Date()], as epoch milliseconds. *)
Definition newDate : D N :=
  fun s =>
    (Done (new_Date env (dated s)),
     {| asked := asked s; dated := S (dated s); sent := sent s;
        daglig_matlogg := daglig_matlogg s;
        maltidsinlagg := maltidsinlagg s;
        makro_mal := makro_mal s |}).

(** The state after one store request that leaves the tables as given. *)
Definition served (s : State) (logs : list DailyLog) (items : list MealItem)
    (macros : list MacroRow) : State :=
  {| asked := asked s; dated := dated s; sent := S (sent s);
     daglig_matlogg := logs; maltidsinlagg := items; makro_mal := macros |}.

Definition unchanged (s : State) : State :=
  served s (daglig_matlogg s) (maltidsinlagg s) (makro_mal s).

(** A request that reads [rows] with [maybeSingle]: one row is the data, no
    row is [null], several rows are an error. *)
Definition maybeSingle {R} (rows : list R) : D (Answer (option R)) :=
  fun s =>
    match store_fault env (sent s) with
    | Crashes e => (Throws e, unchanged s)
    | Fails e => (Done (Failed e), unchanged s)
    | Healthy =>
        match rows with
        | [] => (Done (Data None), unchanged s)
        | [row] => (Done (Data (Some row)), unchanged s)
        | _ => (Done (Failed (several_rows env)), unchanged s)
        end
    end.

Definition logs_of (user day : jsstring) (logs : list DailyLog)
    : list DailyLog :=
  filter (fun l => string_eqb (user_id l) user
                   && string_eqb (loggdatum l) day) logs.

(** [from('daglig_matlogg').select('id').eq('user_id', user)
      .eq('loggdatum', day).maybeSingle()]. *)
Definition select_log (user day : jsstring)
    : D (Answer (option DailyLog)) :=
  fun s => maybeSingle (logs_of user day (daglig_matlogg s)) s.

(** [from('daglig_matlogg').insert({ user_id, loggdatum }).select().single()]:
    the store keys the new row and answers it. *)
Definition insert_log (user day : jsstring) : D (Answer DailyLog) :=
  fun s =>
    match store_fault env (sent s) with
    | Crashes e => (Throws e, unchanged s)
    | Fails e => (Done (Failed e), unchanged s)
    | Healthy =>
        let row := {| log_id := generated_id env (sent s);
                      user_id := user; loggdatum := day |} in
        (Done (Data row),
         served s (daglig_matlogg s ++ [row]) (maltidsinlagg s) (makro_mal s))
    end.

(** A request that writes the meal items and answers [{ error }]. *)
Definition write_items (f : list MealItem -> list MealItem)
    : D (option Thrown) :=
  fun s =>
    match store_fault env (sent s) with
    | Crashes e => (Throws e, unchanged s)
    | Fails e => (Done (Some e), unchanged s)
    | Healthy =>
        (Done None,
         served s (daglig_matlogg s) (f (maltidsinlagg s)) (makro_mal s))
    end.

(** [from('maltidsinlagg').delete().eq('id', itemId)]. *)
Definition delete_item (itemId : jsstring) : D (option Thrown) :=
  write_items (filter (fun i => negb (string_eqb (item_id i) itemId))).

Definition with_quantity (quantity : number) (i : MealItem) : MealItem :=
  {| item_id := item_id i;
     entry := {| MealEntry.daglig_logg_id := MealEntry.daglig_logg_id (entry i);
                 MealEntry.maltidstyp := MealEntry.maltidstyp (entry i);
                 MealEntry.off_id := MealEntry.off_id (entry i);
                 MealEntry.custom_namn := MealEntry.custom_namn (entry i);
                 MealEntry.antal_gram := quantity |} |}.

(** [from('maltidsinlagg').update({ antal_gram }).eq('id', itemId)]. *)
Definition update_item (itemId : jsstring) (antal_gram : number)
    : D (option Thrown) :=
  write_items
    (map (fun i => if string_eqb (item_id i) itemId
                   then with_quantity antal_gram i else i)).

Definition goals_of (user : jsstring) (rows : list MacroRow)
    : list MacroRow :=
  filter (fun r => string_eqb (goal_user_id r) user) rows.

(** [from('makro_mal').select('*').eq('user_id', user).maybeSingle()]. *)
Definition select_goals (user : jsstring) : D (Answer (option MacroRow)) :=
  fun s => maybeSingle (goals_of user (makro_mal s)) s.

(** [from('makro_mal').upsert(row)].  The table is taken to be keyed by
    [user_id], the column the code reads it back by: the row replaces the
    user's row if there is one, and is added otherwise. *)
Definition upsert_goals (row : MacroRow) : D (option Thrown) :=
  fun s =>
    match store_fault env (sent s) with
    | Crashes e => (Throws e, unchanged s)
    | Fails e => (Done (Some e), unchanged s)
    | Healthy =>
        let rows := makro_mal s in
        let rows' :=
          match goals_of (goal_user_id row) rows with
          | [] => rows ++ [row]
          | _ => map (fun r => if string_eqb (goal_user_id r)
                                    (goal_user_id row)
                               then row else r) rows
          end in
        (Done None, served s (daglig_matlogg s) (maltidsinlagg s) rows')
    end.

(* ---------------------------------------------------------------- *)
(** ** The exported functions                                         *)
(* ---------------------------------------------------------------- *)

Definition msg_not_authenticated : jsstring := lit "User not authenticated".

(** The middle of [createMeal]: look the day's log up, create it if there
    is none, and come back with its id. *)
Definition find_or_create_log (user logDate : jsstring) : D jsstring :=
  existing <- select_log user logDate ;;
  match existing with
  | Failed logError => throw logError
  | Data (Some existingLog) => ret (log_id existingLog)
  | Data None =>
      created <- insert_log user logDate ;;
      match created with
      | Failed createLogError => throw createLogError
      | Data newLog => ret (log_id newLog)
      end
  end.

(** [createMeal(mealName, date?)]; [date] is [None] when the caller leaves
    it out, the epoch milliseconds of a valid date otherwise.  The function
    answers [{ id: logId }]. *)
Definition createMeal (mealName : jsstring) (date : option N) : D jsstring :=
  try_catch
    (user <- getUser ;;
     match user with
     | None => throw (Error msg_not_authenticated)
     | Some user =>
         logDate <- match date with
                    | Some d => ret (toISODay env d)
                    | None => d <- newDate ;; ret (toISODay env d)
                    end ;;
         let mealType := toLowerCase env mealName in
         find_or_create_log (id user) logDate
     end)
    (fun error => throw error).

(** [deleteMealItem(itemId)]. *)
Definition deleteMealItem (itemId : jsstring) : D unit :=
  try_catch
    (error <- delete_item itemId ;;
     match error with
     | Some error => throw error
     | None => ret tt
     end)
    (fun error => throw error).

(** [updateMealItemQuantity(itemId, quantityGrams)]. *)
Definition updateMealItemQuantity (itemId : jsstring) (quantityGrams : number)
    : D unit :=
  try_catch
    (error <- update_item itemId quantityGrams ;;
     match error with
     | Some error => throw error
     | None => ret tt
     end)
    (fun error => throw error).

(** [getUserMacroGoals()]; [None] is the [null] it returns. *)
Definition getUserMacroGoals : D (option MacroGoals) :=
  try_catch
    (user <- getUser ;;
     match user with
     | None => ret None
     | Some user =>
         answer <- select_goals (id user) ;;
         match answer with
         | Failed error => throw error
         | Data None => ret None
         | Data (Some data) =>
             ret (Some {| kalorier_kcal := kalorier_kcal (goals data);
                          protein_g := protein_g (goals data);
                          kolhydrater_g := kolhydrater_g (goals data);
                          fett_g := fett_g (goals data) |})
         end
     end)
    (fun _ => ret None).

(** [setUserMacroGoals(kalorier_kcal, protein_g, kolhydrater_g, fett_g)]. *)
Definition setUserMacroGoals (kcal protein carbs fat : number) : D unit :=
  try_catch
    (user <- getUser ;;
     match user with
     | None => throw (Error msg_not_authenticated)
     | Some user =>
         now <- newDate ;;
         error <- upsert_goals
                    {| goal_user_id := id user;
                       goals := {| kalorier_kcal := kcal;
                                   protein_g := protein;
                                   kolhydrater_g := carbs;
                                   fett_g := fat |};
                       updated_at := now |} ;;
         match error with
         | Some error => throw error
         | None => ret tt
         end
     end)
    (fun error => throw error).

End Requests.

End Diary.

(* ------------------------------------------------------------------ *)
(** ** Vocabulary of the further statements                             *)
(* ------------------------------------------------------------------ *)

(** The endpoint answers without error, but not with an array. *)
Definition malformed (o : InvokeOutcome) : bool :=
  match o with
  | Rejects _ => false
  | Resolves data error =>
      match error, data with
      | None, NoData => true
      | None, NotArray => true
      | _, _ => false
      end
  end.

(** What the raw item holds is handed on as it is: the name and the sugar
    value whatever they are, a number other than zero, a non-empty text. *)
Definition kept (item : Raw.t) (p : FoodProduct.t) : Prop :=
  FoodProduct.name p = Raw.name item
  /\ FoodProduct.sugar p = Raw.sugar item
  /\ (forall x, Raw.calories item = NNumber x -> number_truthy x = true ->
                FoodProduct.calories p = x)
  /\ (forall x, Raw.protein item = NNumber x -> number_truthy x = true ->
                FoodProduct.protein p = x)
  /\ (forall x, Raw.fat item = NNumber x -> number_truthy x = true ->
                FoodProduct.fat p = x)
  /\ (forall x, Raw.carbs item = NNumber x -> number_truthy x = true ->
                FoodProduct.carbs p = x)
  /\ (truthy (Raw.brand item) = true ->
      TString (FoodProduct.brand p) = Raw.brand item)
  /\ (truthy (Raw.image_url item) = true ->
      TString (FoodProduct.image_url p) = Raw.image_url item).

(** The row [cacheSearchResults] writes for a search result. *)
Definition cached_from (products : list Raw.t) (row : CacheRow.t) : Prop :=
  exists product,
    In product products
    /\ has_identifier product = true
    /\ row = cache_row_of (canonical_id product) product.

(** The meal entry [addFoodToMeal] sends, given the identifier it settled
    on. *)
Definition meal_entry (env : Env) (logId : jsstring) (product : FoodProduct.t)
    (quantityGrams : number) (mealType : option jsstring) (off_id : text)
    : MealEntry.t :=
  {| MealEntry.daglig_logg_id := logId;
     MealEntry.maltidstyp :=
       toLowerCase env match mealType with
                       | Some m => m
                       | None => lit "frukost"
                       end;
     MealEntry.off_id := off_id;
     MealEntry.custom_namn := FoodProduct.name product;
     MealEntry.antal_gram := valid_quantity quantityGrams |}.

(** A product as the search returns it for [banana], and one with a
    barcode. *)
Definition banana_product : FoodProduct.t :=
  {| FoodProduct.name := TString (lit "Banana"); FoodProduct.brand := [];
     FoodProduct.calories := Fin (inject_Z 89); FoodProduct.protein := Fin 0;
     FoodProduct.fat := Fin 0; FoodProduct.carbs := Fin 0;
     FoodProduct.sugar := NUndefined; FoodProduct.image_url := [];
     FoodProduct.off_id := TUndefined |}.

Definition oat_milk_product : FoodProduct.t :=
  {| FoodProduct.name := TString (lit "Oat milk");
     FoodProduct.brand := lit "Oatly";
     FoodProduct.calories := Fin (inject_Z 46);
     FoodProduct.protein := Fin (inject_Z 1);
     FoodProduct.fat := Fin 0; FoodProduct.carbs := Fin 0;
     FoodProduct.sugar := NUndefined; FoodProduct.image_url := [];
     FoodProduct.off_id := TString (lit "7394376616037") |}.

(** A store that answers its [n]-th request with [fault] and carries out
    the others. *)
Definition faulty_at (n : nat) (fault : Fault) : Env :=
  {| functions_invoke := fun _ _ => Resolves (ArrayOf [oat_milk]) None;
     Math_random := fun _ => 0%Q;
     Date_now := fun _ => 1700000000000%N;
     store_fault := fun k => if k =? n then fault else Healthy;
     toLowerCase := fun s => s |}.

(** *** Sample diary collaborators *)

Definition anna : Diary.User := {| Diary.id := lit "user-anna" |}.

(** An auth client that always answers [answer], a store that answers its
    [n]-th request with [fault] and carries out the others. *)
Definition diary_env (answer : Diary.AuthAnswer) (n : nat) (fault : Fault)
    : Diary.Env :=
  {| Diary.auth_getUser := fun _ => answer;
     Diary.new_Date := fun _ => 1700000000000%N;
     Diary.toISODay := fun _ => lit "2023-11-14";
     Diary.toLowerCase := fun s => s;
     Diary.store_fault := fun k => if k =? n then fault else Healthy;
     Diary.generated_id := fun k => lit "row-" ++ Number_toString (N.of_nat k);
     Diary.several_rows := Error (lit "multiple rows returned") |}.

Definition empty_diary : Diary.State :=
  {| Diary.asked := 0; Diary.dated := 0; Diary.sent := 0;
     Diary.daglig_matlogg := []; Diary.maltidsinlagg := [];
     Diary.makro_mal := [] |}.

(** The calendar day [createMeal] files a meal under. *)
Definition log_day (env : Diary.Env) (date : option N) (s : Diary.State)
    : jsstring :=
  Diary.toISODay env match date with
                     | Some d => d
                     | None => Diary.new_Date env (Diary.dated s)
                     end.

(** The three tables of a diary state. *)
Definition tables (s : Diary.State)
    : list Diary.DailyLog * list Diary.MealItem * list Diary.MacroRow :=
  (Diary.daglig_matlogg s, Diary.maltidsinlagg s, Diary.makro_mal s).

(** A diary with two meal items. *)
Definition two_items : Diary.State :=
  {| Diary.asked := 0; Diary.dated := 0; Diary.sent := 0;
     Diary.daglig_matlogg := [];
     Diary.maltidsinlagg :=
       [ {| Diary.item_id := lit "item-1";
            Diary.entry := meal_entry (steady (Rejects (Error [])))
                             (lit "log-1") oat_milk_product
                             (Fin (inject_Z 250)) None
                             (FoodProduct.off_id oat_milk_product) |};
         {| Diary.item_id := lit "item-2";
            Diary.entry := meal_entry (steady (Rejects (Error [])))
                             (lit "log-1") banana_product
                             (Fin (inject_Z 120)) (Some (lit "lunch"))
                             (TString (lit "temp_1209")) |} ];
     Diary.makro_mal := [] |}.

(** The diary state after the auth client was asked once and the clock read
    [reads] times. *)
Definition signed_in (s : Diary.State) (reads : nat) : Diary.State :=
  {| Diary.asked := S (Diary.asked s);
     Diary.dated := reads + Diary.dated s;
     Diary.sent := Diary.sent s;
     Diary.daglig_matlogg := Diary.daglig_matlogg s;
     Diary.maltidsinlagg := Diary.maltidsinlagg s;
     Diary.makro_mal := Diary.makro_mal s |}.

(** How often [createMeal] reads the clock. *)
Definition clock_reads (date : option N) : nat :=
  match date with
  | Some _ => 0
  | None => 1
  end.

(** A diary in which anna has two logs for one day. *)
Definition doubled_log : Diary.State :=
  {| Diary.asked := 0; Diary.dated := 0; Diary.sent := 0;
     Diary.daglig_matlogg :=
       [ {| Diary.log_id := lit "log-1"; Diary.user_id := lit "user-anna";
            Diary.loggdatum := lit "2023-11-14" |};
         {| Diary.log_id := lit "log-2"; Diary.user_id := lit "user-anna";
            Diary.loggdatum := lit "2023-11-14" |} ];
     Diary.maltidsinlagg := [];
     Diary.makro_mal := [] |}.

(** The object [getUserMacroGoals] makes of a row. *)
Definition goals_read (row : Diary.MacroRow) : Diary.MacroGoals :=
  {| Diary.kalorier_kcal := Diary.kalorier_kcal (Diary.goals row);
     Diary.protein_g := Diary.protein_g (Diary.goals row);
     Diary.kolhydrater_g := Diary.kolhydrater_g (Diary.goals row);
     Diary.fett_g := Diary.fett_g (Diary.goals row) |}.

(** The four numbers given to [setUserMacroGoals], as goals. *)
Definition goals_given (kcal protein carbs fat : number) : Diary.MacroGoals :=
  {| Diary.kalorier_kcal := kcal; Diary.protein_g := protein;
     Diary.kolhydrater_g := carbs; Diary.fett_g := fat |}.

(* ------------------------------------------------------------------ *)
(** ** Session recovery (lib/supabase)                                  *)
(* ------------------------------------------------------------------ *)

(** [recoverSession] calls the auth client at most three times, each method
    at most once; the state is the list of the calls made. *)
Module Auth.

(** A session, as far as [recoverSession] looks into it. *)
Record Session := {
  access_token : jsstring;
  refresh_token : text
}.

(** What [auth.getSession()] and [auth.refreshSession()] do: reject, or
    resolve with [{ data: { session }, error }]. *)
Inductive Answer :=
| Rejected (e : Thrown)
| Resolved (session : option Session) (error : option Thrown).

Inductive Call := GetSession | RefreshSession | SignOutLocal.

(** [auth_signOut] is the error [auth.signOut] rejects with, if it does. *)
Record Env := {
  auth_getSession : Answer;
  auth_refreshSession : Answer;
  auth_signOut : option Thrown
}.

Definition A (T : Type) := list Call -> outcome T * list Call.

Definition ret {T} (a : T) : A T := fun calls => (Done a, calls).

Definition bind {T U} (c : A T) (k : T -> A U) : A U :=
  fun calls =>
    match c calls with
    | (Done a, calls') => k a calls'
    | (Throws e, calls') => (Throws e, calls')
    end.

Definition try_catch {T} (body : A T) (handler : Thrown -> A T) : A T :=
  fun calls =>
    match body calls with
    | (Done a, calls') => (Done a, calls')
    | (Throws e, calls') => handler e calls'
    end.

Definition asked (call : Call) (answer : Answer)
    : A (option Session * option Thrown) :=
  fun calls =>
    match answer with
    | Rejected e => (Throws e, calls ++ [call])
    | Resolved session error => (Done (session, error), calls ++ [call])
    end.

(** [await supabase.auth.signOut({ scope: 'local' })]. *)
Definition signOut (env : Env) : A unit :=
  fun calls =>
    match auth_signOut env with
    | Some e => (Throws e, calls ++ [SignOutLocal])
    | None => (Done tt, calls ++ [SignOutLocal])
    end.

(** [recoverSession()]; [None] is the [null] it returns. *)
Definition recoverSession (env : Env) : A (option Session) :=
  try_catch
    (bind (asked GetSession (auth_getSession env)) (fun answer =>
     let '(session, sessionError) := answer in
     match sessionError with
     | Some _ => ret None
     | None =>
         match session with
         | None => ret None
         | Some session =>
             if truthy (refresh_token session)
             then
               try_catch
                 (bind (asked RefreshSession (auth_refreshSession env))
                    (fun refreshed =>
                     let '(refreshedSession, refreshError) := refreshed in
                     match refreshError with
                     | Some _ => ret None
                     | None => ret refreshedSession
                     end))
                 (fun err => ret (Some session))
             else ret (Some session)
         end
     end))
    (fun err =>
       bind (try_catch (signOut env) (fun clearErr => ret tt))
         (fun _ => ret None)).

End Auth.

(** What [recoverSession] should come back with, by the auth client's
    answers. *)
Definition recovered (env : Auth.Env) : option Auth.Session :=
  match Auth.auth_getSession env with
  | Auth.Resolved (Some session) None =>
      if truthy (Auth.refresh_token session)
      then match Auth.auth_refreshSession env with
           | Auth.Rejected _ => Some session
           | Auth.Resolved refreshed None => refreshed
           | Auth.Resolved _ (Some _) => None
           end
      else Some session
  | _ => None
  end.

(** The calls [recoverSession] should make. *)
Definition recovery_calls (env : Auth.Env) : list Auth.Call :=
  match Auth.auth_getSession env with
  | Auth.Rejected _ => [Auth.GetSession; Auth.SignOutLocal]
  | Auth.Resolved (Some session) None =>
      if truthy (Auth.refresh_token session)
      then [Auth.GetSession; Auth.RefreshSession]
      else [Auth.GetSession]
  | _ => [Auth.GetSession]
  end.

(* ------------------------------------------------------------------ *)
(** ** Strings: equality, search, decimal digits                        *)
(* ------------------------------------------------------------------ *)

Lemma string_eqb_eq (a b : jsstring) : string_eqb a b = true <-> a = b.
Proof.
  revert b; induction a as [|x a IH]; intros [|y b]; simpl;
    try (split; [discriminate | congruence]); try tauto.
  unfold char_eqb. rewrite andb_true_iff, N.eqb_eq, IH.
  split; [intros [-> ->]; reflexivity | intros E; injection E; auto].
Qed.

Lemma text_eqb_eq (a b : text) : text_eqb a b = true <-> a = b.
Proof.
  destruct a, b; simpl; try (split; [discriminate | congruence]); try tauto.
  rewrite string_eqb_eq. split; congruence.
Qed.

Lemma text_eqb_refl (a : text) : text_eqb a a = true.
Proof. apply text_eqb_eq; reflexivity. Qed.

Lemma startsWith_app (hay needle : jsstring) :
  startsWith hay needle = true <-> exists rest, hay = needle ++ rest.
Proof.
  revert hay; induction needle as [|n needle IH]; intros hay; simpl.
  - split; [exists hay; reflexivity | destruct hay; reflexivity].
  - destruct hay as [|h hay].
    + split; [discriminate | intros [rest E]; discriminate].
    + cbn [startsWith]. unfold char_eqb.
      rewrite andb_true_iff, N.eqb_eq, IH. split.
      * intros [-> [rest ->]]. exists rest; reflexivity.
      * intros [rest E]. injection E as -> ->. split; [reflexivity | eauto].
Qed.

(** [includes] finds exactly the substrings. *)
Lemma includes_substring (hay needle : jsstring) :
  includes hay needle = true <->
  exists before after, hay = before ++ needle ++ after.
Proof.
  induction hay as [|h hay IH].
  - cbn [includes]. rewrite orb_false_r, startsWith_app. split.
    + intros [rest E]. exists [], rest. exact E.
    + intros [before [after E]]. destruct before; [|discriminate].
      exists after. exact E.
  - cbn [includes]. rewrite orb_true_iff, startsWith_app, IH. split.
    + intros [[rest E] | [before [after E]]].
      * exists [], rest. exact E.
      * exists (h :: before), after. simpl. now rewrite E.
    + intros [[|b before] [after E]].
      * left. exists after. exact E.
      * right. injection E as _ E. eauto.
Qed.

Lemma lit_inj (s t : string) : lit s = lit t -> s = t.
Proof.
  unfold lit. intros E.
  rewrite <- (string_of_list_ascii_of_string s),
          <- (string_of_list_ascii_of_string t).
  f_equal.
  revert E. generalize (list_ascii_of_string s) (list_ascii_of_string t).
  intros l; induction l as [|a l IH]; intros [|b l']; simpl;
    try discriminate; try reflexivity.
  intros E. injection E as Ea El. f_equal; [|now apply IH].
  rewrite <- (ascii_N_embedding a), <- (ascii_N_embedding b). now rewrite Ea.
Qed.

Lemma Number_toString_inj (m n : N) :
  Number_toString m = Number_toString n -> m = n.
Proof.
  unfold Number_toString. intros E. apply lit_inj in E.
  apply DecimalN.Unsigned.to_uint_inj.
  assert (Some (N.to_uint m) = Some (N.to_uint n)) as S
    by (rewrite <- !NilEmpty.usu; now rewrite E).
  now injection S.
Qed.

(* ------------------------------------------------------------------ *)
(** ** The checksum                                                     *)
(* ------------------------------------------------------------------ *)

Lemma reduce_from (s : jsstring) (acc : N) :
  fold_left (fun acc char => (acc + char)%N) s acc = (acc + code_sum s)%N.
Proof.
  revert acc; induction s as [|c s IH]; intros acc; simpl.
  - lia.
  - rewrite IH. lia.
Qed.

Lemma checksum_code_sum (s : jsstring) : checksum s = code_sum s.
Proof. unfold checksum, split_units. now rewrite reduce_from. Qed.

Lemma code_sum_app (s t : jsstring) :
  code_sum (s ++ t) = (code_sum s + code_sum t)%N.
Proof. induction s as [|c s IH]; simpl; [reflexivity | rewrite IH; lia]. Qed.

Lemma tempIdAt_inj_checksum (name1 brand1 name2 brand2 : text) (t1 t2 : N) :
  tempIdAt name1 brand1 t1 = tempIdAt name2 brand2 t2 ->
  checksum (ToString name1 ++ or_string brand1 [] ++ Number_toString t1)
  = checksum (ToString name2 ++ or_string brand2 [] ++ Number_toString t2).
Proof.
  unfold tempIdAt. intros E. apply app_inv_head in E.
  now apply Number_toString_inj.
Qed.

(* ------------------------------------------------------------------ *)
(** ** The model at work on small inputs                                *)
(* ------------------------------------------------------------------ *)

Example includes_inside_number :
  includes (lit "timeout after 4045 ms") (lit "404") = true.
Proof. reflexivity. Qed.

Example includes_absent :
  includes (lit "Ogiltig respons") (lit "Network") = false.
Proof. reflexivity. Qed.

Example banana_tempId :
  tempIdAt (TString (lit "Banana")) TUndefined 1700000000000
  = lit "temp_1209".
Proof. reflexivity. Qed.

Example barcode_is_cached_once :
  map CacheRow.off_id
    (livsmedelskache
       (snd (cacheSearchResults (steady (Rejects (Error [])))
               [oat_milk; banana; oat_milk] fresh)))
  = [TString (lit "7394376616037")].
Proof. reflexivity. Qed.

Example two_failures_then_not_found :
  slept (snd (searchProductsByName late_not_found (lit "banana") fresh))
  = [inject_Z 1050; inject_Z 2050].
Proof. vm_compute. reflexivity. Qed.

Example a_tenth_rounds :
  Double.round (1 # 10) = (3602879701896397 # 36028797018963968)%Q.
Proof. vm_compute. reflexivity. Qed.

Example jitter_of_a_tenth :
  waitTime 1 (Double.mul (Double.round (1 # 10)) (inject_Z 200))
  = inject_Z 1020.
Proof. vm_compute. reflexivity. Qed.

Example draws_just_below_one :
  waitTime 1 (Double.mul (9007199254740991 # 9007199254740992) (inject_Z 200))
  = inject_Z 1200
  /\ waitTime 2 (Double.mul last_draw (inject_Z 200)) = inject_Z 2200.
Proof. split; vm_compute; reflexivity. Qed.

Example halfway_goes_to_even :
  Double.round (inject_Z (2 ^ 53) + 1) = inject_Z (2 ^ 53)
  /\ Double.round (inject_Z (2 ^ 53) + 3) = inject_Z (2 ^ 53 + 4).
Proof. split; vm_compute; reflexivity. Qed.

(* ------------------------------------------------------------------ *)
(** ** generateTempId: shape and collisions                             *)
(* ------------------------------------------------------------------ *)

(** C9. For every name and every brand, [generateTempId] returns (it never
    throws) the text [temp_] followed by the decimal sum of the character
    codes of name + brand + the clock's reading, where a brand that is
    absent, null or empty contributes nothing. *)
Theorem generateTempId_is_prefixed_code_sum
    (env : Env) (name : jsstring) (brand : text) (w : World) :
  let timestamp := Date_now env (clocked w) in
  let brand_text := match brand with TString s => s | _ => [] end in
  fst (generateTempId env (TString name) brand w)
  = Done (lit "temp_"
          ++ Number_toString
               (code_sum (name ++ brand_text ++ Number_toString timestamp))).
Proof.
  cbv zeta. unfold generateTempId, bind, now, ret. cbn [fst].
  unfold tempIdAt. rewrite checksum_code_sum. cbn [ToString].
  destruct brand as [| |[|c s]]; reflexivity.
Qed.

(** C8, as amended. Two identifiers synthesized at the same clock reading are
    equal exactly when the character-code sums of their name + brand texts
    are equal: inputs with different sums get different identifiers, inputs
    with equal sums (the same text, or a rearrangement of it) collide. *)
Theorem same_instant_ids_equal_iff_sums_equal
    (env : Env) (name1 brand1 name2 brand2 : text) (w1 w2 : World) :
  Date_now env (clocked w1) = Date_now env (clocked w2) ->
  (fst (generateTempId env name1 brand1 w1)
   = fst (generateTempId env name2 brand2 w2)
   <-> code_sum (ToString name1 ++ or_string brand1 [])
       = code_sum (ToString name2 ++ or_string brand2 [])).
Proof.
  intros Hclock. unfold generateTempId, bind, now, ret. cbn [fst].
  rewrite Hclock. set (t := Date_now env (clocked w2)). split.
  - intros E0.
    assert (tempIdAt name1 brand1 t = tempIdAt name2 brand2 t) as E
      by congruence.
    apply tempIdAt_inj_checksum in E.
    rewrite !checksum_code_sum, !app_assoc in E.
    rewrite !(code_sum_app _ (Number_toString t)) in E. lia.
  - intros E. unfold tempIdAt. rewrite !checksum_code_sum, !app_assoc.
    rewrite !(code_sum_app _ (Number_toString t)), E. reflexivity.
Qed.

Lemma same_instant_ids_witness :
  fst (generateTempId (steady (Rejects (Error []))) (TString (lit "ab"))
         TUndefined fresh)
  = fst (generateTempId (steady (Rejects (Error []))) (TString (lit "ab"))
         (TString []) fresh)
  <-> code_sum (ToString (TString (lit "ab")) ++ or_string TUndefined [])
      = code_sum (ToString (TString (lit "ab")) ++ or_string (TString []) []).
Proof.
  apply (same_instant_ids_equal_iff_sums_equal
           (steady (Rejects (Error []))) (TString (lit "ab")) TUndefined
           (TString (lit "ab")) (TString []) fresh fresh).
  reflexivity.
Defined.

(** C8, as stated, fails: "ab" and "ba" are distinct names, and at one clock
    reading both get the identifier [temp_] followed by the same sum. *)
Lemma rearranged_name_same_id :
  ~ (forall (name1 brand1 name2 brand2 : jsstring) (timestamp : N),
        name1 ++ brand1 <> name2 ++ brand2 ->
        tempIdAt (TString name1) (TString brand1) timestamp
        <> tempIdAt (TString name2) (TString brand2) timestamp).
Proof.
  intros claim.
  apply (claim (lit "ab") [] (lit "ba") [] 1700000000000%N).
  - discriminate.
  - vm_compute. reflexivity.
Qed.

(* ------------------------------------------------------------------ *)
(** ** addFoodToMeal: the stored quantity                               *)
(* ------------------------------------------------------------------ *)

Lemma valid_quantity_as_requested (quantityGrams : number) :
  stored_as_requested quantityGrams (valid_quantity quantityGrams).
Proof.
  unfold stored_as_requested, valid_quantity, gt_zero.
  destruct quantityGrams as [x| |[|]]; try reflexivity.
  destruct (Qle_bool x 0) eqn:E; cbn [negb]; split; intros H;
    try reflexivity.
  - apply Qle_bool_iff in E. exfalso. apply (Qlt_not_le _ _ H E).
  - exfalso. apply Qle_bool_iff in H. congruence.
Qed.

Lemma ensure_off_id_keeps_meals (env : Env) (product : FoodProduct.t)
    (w : World) :
  maltidsinlagg (snd (ensure_off_id env product w)) = maltidsinlagg w.
Proof.
  cbv beta iota delta
    [ensure_off_id bind generateTempId now insert_cache answered ret].
  destruct (negb (truthy (FoodProduct.off_id product))); [|reflexivity].
  cbn [requested].
  destruct (store_fault env (requested w)); reflexivity.
Qed.

(** With its first request carried out, the identifier step returns and
    has sent at most that one request. *)
Lemma ensure_off_id_returns (env : Env) (product : FoodProduct.t)
    (w : World) :
  store_fault env (requested w) = Healthy ->
  exists off_id,
    fst (ensure_off_id env product w) = Done off_id
    /\ (requested (snd (ensure_off_id env product w)) = requested w
        \/ requested (snd (ensure_off_id env product w)) = S (requested w)).
Proof.
  intros Hhealthy.
  cbv beta iota delta
    [ensure_off_id bind generateTempId now insert_cache answered ret].
  destruct (negb (truthy (FoodProduct.off_id product))).
  - cbn [requested]. rewrite Hhealthy. cbn [fst snd requested]. eauto.
  - cbn [fst snd]. eauto.
Qed.

(** C10. A call of [addFoodToMeal] never rejects a quantity: whether it
    returns or throws is the same for every [quantityGrams], and it returns
    when the store carries out the one or two requests it sends.  A call
    that returns has added exactly one row to the meal entries, a call that
    throws none, and the row holds [quantityGrams] when that is positive
    and 100 when it is zero or negative (and 100 for NaN). *)
Theorem addFoodToMeal_stores_valid_quantity
    (env : Env) (logId : jsstring) (product : FoodProduct.t)
    (quantityGrams : number) (mealType : option jsstring) (w : World) :
  let r := addFoodToMeal env logId product quantityGrams mealType w in
  (forall other,
      fst (addFoodToMeal env logId product other mealType w) = fst r)
  /\ (store_fault env (requested w) = Healthy ->
      store_fault env (S (requested w)) = Healthy ->
      fst r = Done tt)
  /\ exists rows,
       maltidsinlagg (snd r) = maltidsinlagg w ++ rows
       /\ (fst r = Done tt -> List.length rows = 1)
       /\ (fst r <> Done tt -> rows = [])
       /\ Forall (fun row =>
                    stored_as_requested quantityGrams
                      (MealEntry.antal_gram row))
                 rows.
Proof.
  cbv zeta.
  pose proof (valid_quantity_as_requested quantityGrams) as Hq.
  unfold addFoodToMeal, try_catch, bind.
  pose proof (ensure_off_id_keeps_meals env product w) as Hkeep.
  pose proof (ensure_off_id_returns env product w) as Hret.
  destruct (ensure_off_id env product w) as [[off_id|e] w1];
    cbn [fst snd] in Hkeep, Hret.
  - unfold insert_meal, answered, throw, ret.
    destruct (store_fault env (requested w1)) eqn:F1; cbn [fst snd maltidsinlagg].
    + split; [reflexivity|]. split; [reflexivity|].
      eexists [_]. rewrite Hkeep. repeat split; try congruence.
      constructor; [exact Hq | constructor].
    + split; [reflexivity|]. split.
      { intros H0 H1. destruct (Hret H0) as (_ & _ & [E | E]);
          rewrite E in F1; congruence. }
      exists []. rewrite app_nil_r. repeat split; try discriminate; auto.
    + split; [reflexivity|]. split.
      { intros H0 H1. destruct (Hret H0) as (_ & _ & [E | E]);
          rewrite E in F1; congruence. }
      exists []. rewrite app_nil_r. repeat split; try discriminate; auto.
  - unfold throw. cbn [fst snd]. split; [reflexivity|]. split.
    { intros H0 _. destruct (Hret H0) as (? & ? & _). discriminate. }
    exists []. rewrite app_nil_r.
    repeat split; try discriminate; auto.
Qed.

Lemma addFoodToMeal_default_witness :
  fst (addFoodToMeal (faulty_at 5 Healthy) (lit "log-1") banana_product
         (Fin (inject_Z (-5))) None fresh)
  = Done tt
  /\ map MealEntry.antal_gram
       (maltidsinlagg
          (snd (addFoodToMeal (faulty_at 5 Healthy) (lit "log-1")
                  banana_product (Fin (inject_Z (-5))) None fresh)))
     = [Fin (inject_Z 100)].
Proof.
  destruct (addFoodToMeal_stores_valid_quantity
              (faulty_at 5 Healthy) (lit "log-1") banana_product
              (Fin (inject_Z (-5))) None fresh)
    as (_ & Hdone & rows & Hrows & Hone & _ & Hall).
  assert (fst (addFoodToMeal (faulty_at 5 Healthy) (lit "log-1")
                 banana_product (Fin (inject_Z (-5))) None fresh)
          = Done tt) as E by (apply Hdone; reflexivity).
  split; [exact E|].
  rewrite Hrows. specialize (Hone E).
  destruct rows as [|row [|row' rest]]; try discriminate Hone.
  apply Forall_inv in Hall. destruct Hall as [_ Hdefault].
  cbn [app map fresh maltidsinlagg]. rewrite Hdefault; [reflexivity|].
  unfold Qle. cbn. lia.
Defined.

(* ------------------------------------------------------------------ *)
(** ** cacheSearchResults                                               *)
(* ------------------------------------------------------------------ *)

Lemma guarded_inserts_found (id : text) (events : list StoreEvent) :
  guarded_inserts (Lookup id true :: events) = guarded_inserts events.
Proof. reflexivity. Qed.

(** The loop only appends: to the journal, guarded events; to the cache,
    rows.  Everything outside the store stays as it was. *)
Lemma cache_each_effect (env : Env) (products : list Raw.t) (w : World) :
  exists events added,
    store_grew w (snd (cache_each env products w)) events added
    /\ guarded_inserts events = true.
Proof.
  revert w. induction products as [|product rest IH]; intros w.
  - exists [], []. unfold store_grew. cbn. rewrite !app_nil_r. auto.
  - cbn [cache_each].
    destruct (negb (truthy (Raw.off_id product))
              && negb (truthy (Raw.barcode product))); [apply IH|].
    set (id := or_text (Raw.off_id product) (Raw.barcode product)).
    set (row := cache_row_of id product).
    unfold bind, select_maybeSingle, insert_cache.
    destruct (store_fault env (requested w)) eqn:F1.
    + destruct (match matching id (livsmedelskache w) with
                | [_] => true
                | _ => false
                end).
      * destruct (IH (answered w (livsmedelskache w) (maltidsinlagg w)
                        (Lookup id true)))
          as (events & added & (Hj & Hc & Hm & Ho) & Hg).
        exists (Lookup id true :: events), added.
        unfold store_grew. rewrite Hj, Hc, Hm, Ho. cbn.
        rewrite <- app_assoc. auto.
      * cbn [requested answered].
        destruct (store_fault env (S (requested w))) eqn:F2.
        -- match goal with
           | |- context [cache_each env rest ?w2] =>
               destruct (IH w2) as (events & added & (Hj & Hc & Hm & Ho) & Hg)
           end.
           exists (Lookup id false :: InsertCache row true :: events),
                  (row :: added).
           unfold store_grew. rewrite Hj, Hc, Hm, Ho. cbn.
           rewrite <- !app_assoc, text_eqb_refl, Hg. auto.
        -- match goal with
           | |- context [cache_each env rest ?w2] =>
               destruct (IH w2) as (events & added & (Hj & Hc & Hm & Ho) & Hg)
           end.
           exists (Lookup id false :: InsertCache row false :: events), added.
           unfold store_grew. rewrite Hj, Hc, Hm, Ho. cbn.
           rewrite <- !app_assoc, text_eqb_refl, Hg. auto.
        -- exists [Lookup id false; InsertCache row false], [].
           unfold store_grew. cbn.
           rewrite <- !app_assoc, text_eqb_refl, app_nil_r. auto.
    + cbn [requested answered].
      destruct (store_fault env (S (requested w))) eqn:F2.
      * match goal with
        | |- context [cache_each env rest ?w2] =>
            destruct (IH w2) as (events & added & (Hj & Hc & Hm & Ho) & Hg)
        end.
        exists (Lookup id false :: InsertCache row true :: events),
               (row :: added).
        unfold store_grew. rewrite Hj, Hc, Hm, Ho. cbn.
        rewrite <- !app_assoc, text_eqb_refl, Hg. auto.
      * match goal with
        | |- context [cache_each env rest ?w2] =>
            destruct (IH w2) as (events & added & (Hj & Hc & Hm & Ho) & Hg)
        end.
        exists (Lookup id false :: InsertCache row false :: events), added.
        unfold store_grew. rewrite Hj, Hc, Hm, Ho. cbn.
        rewrite <- !app_assoc, text_eqb_refl, Hg. auto.
      * exists [Lookup id false; InsertCache row false], [].
        unfold store_grew. cbn.
        rewrite <- !app_assoc, text_eqb_refl, app_nil_r. auto.
    + exists [LookupCrashed id], []. unfold store_grew. cbn.
      rewrite app_nil_r. auto.
Qed.

Lemma cacheSearchResults_swallows (env : Env) (products : list Raw.t)
    (w : World) :
  cacheSearchResults env products w
  = (Done tt, snd (cache_each env products w)).
Proof.
  unfold cacheSearchResults, try_catch, ret.
  destruct (cache_each env products w) as [[[]|e] w']; reflexivity.
Qed.

Lemma cache_each_skips (env : Env) (products : list Raw.t) (w : World) :
  cache_each env products w
  = cache_each env (filter has_identifier products) w.
Proof.
  revert w. induction products as [|product rest IH]; intros w;
    [reflexivity|].
  cbn [cache_each filter]. unfold has_identifier at 1.
  rewrite <- negb_orb.
  destruct (truthy (Raw.off_id product) || truthy (Raw.barcode product))
    eqn:E; cbn [negb].
  - cbn [cache_each]. rewrite <- negb_orb, E. cbn [negb].
    unfold bind. destruct (select_maybeSingle env _ w) as [[[|]|e] w1];
      [apply IH| |reflexivity].
    destruct (insert_cache env _ w1) as [[?|?] w2]; [apply IH|reflexivity].
  - apply IH.
Qed.

(** *** The cache under a store that carries out every request *)

Lemma matching_empty (id : text) (rows : list CacheRow.t) :
  matching id rows = [] <-> ~ In id (map CacheRow.off_id rows).
Proof.
  unfold matching. induction rows as [|r rows IH]; cbn [filter map In].
  - tauto.
  - destruct (text_eqb (CacheRow.off_id r) id) eqn:E.
    + apply text_eqb_eq in E. split; [discriminate | tauto].
    + rewrite IH. split; [|tauto].
      intros H [E'|H']; [|tauto].
      apply text_eqb_eq in E'. congruence.
Qed.

Lemma matching_In (id : text) (rows : list CacheRow.t) (r : CacheRow.t) :
  In r (matching id rows) -> In id (map CacheRow.off_id rows).
Proof.
  unfold matching. intros H. apply filter_In in H as [Hr E].
  apply text_eqb_eq in E. subst id. now apply in_map.
Qed.

Lemma matching_unique (id : text) (rows : list CacheRow.t) :
  NoDup (map CacheRow.off_id rows) ->
  In id (map CacheRow.off_id rows) ->
  exists r, matching id rows = [r].
Proof.
  induction rows as [|r rows IH]; cbn [map In]; [tauto|].
  intros Hnd Hin. apply NoDup_cons_iff in Hnd as [Hfresh Hnd].
  unfold matching in *. cbn [filter].
  destruct (text_eqb (CacheRow.off_id r) id) eqn:E.
  - apply text_eqb_eq in E. subst id. exists r. f_equal.
    now apply matching_empty.
  - destruct Hin as [E'|Hin]; [|now apply IH].
    apply text_eqb_eq in E'. congruence.
Qed.

Lemma NoDup_snoc {A} (l : list A) (x : A) :
  NoDup l -> ~ In x l -> NoDup (l ++ [x]).
Proof.
  intros Hnd Hx. induction Hnd as [|y l Hy Hnd IH]; cbn.
  - constructor; [tauto | constructor].
  - constructor.
    + rewrite in_app_iff. cbn. intros [H|[H|[]]]; [tauto|].
      subst. apply Hx. now left.
    + apply IH. intros H. apply Hx. now right.
Qed.

Lemma canonical_id_of_row (id : text) (product : Raw.t) :
  CacheRow.off_id (cache_row_of id product) = id.
Proof. reflexivity. Qed.

(** With a store that works, the loop keeps identifiers unique, keeps what
    was there, and leaves every identified product in the cache. *)
Lemma cache_each_healthy (env : Env) (products : list Raw.t) :
  (forall k, store_fault env k = Healthy) ->
  forall w,
    NoDup (map CacheRow.off_id (livsmedelskache w)) ->
    NoDup (map CacheRow.off_id
             (livsmedelskache (snd (cache_each env products w))))
    /\ (forall id, In id (map CacheRow.off_id (livsmedelskache w)) ->
                   In id (map CacheRow.off_id
                            (livsmedelskache
                               (snd (cache_each env products w)))))
    /\ (forall product, In product products ->
                        has_identifier product = true ->
                        In (canonical_id product)
                           (map CacheRow.off_id
                              (livsmedelskache
                                 (snd (cache_each env products w))))).
Proof.
  intros Hhealthy. induction products as [|product rest IH]; intros w Hnd.
  - cbn. tauto.
  - cbn [cache_each]. rewrite <- negb_orb.
    fold (has_identifier product). fold (canonical_id product).
    destruct (has_identifier product) eqn:Hid; cbn [negb].
    + set (id := canonical_id product).
      unfold bind, select_maybeSingle, insert_cache.
      rewrite Hhealthy.
      destruct (matching id (livsmedelskache w)) as [|r [|r' more]] eqn:Em.
      * cbn [requested answered]. rewrite Hhealthy.
        set (w2 := answered _ _ _ _).
        assert (NoDup (map CacheRow.off_id (livsmedelskache w2))) as Hnd2.
        { subst w2. cbn. rewrite map_app. cbn.
          apply NoDup_snoc; [exact Hnd | now apply matching_empty]. }
        destruct (IH w2 Hnd2) as (H1 & H2 & H3).
        assert (forall i, In i (map CacheRow.off_id (livsmedelskache w)) ->
                          In i (map CacheRow.off_id (livsmedelskache w2)))
          as Hkeep.
        { intros i Hi. subst w2. cbn. rewrite map_app, in_app_iff. now left. }
        repeat split; [exact H1 | auto |].
        intros p [->|Hp] Hp'; [|now apply H3].
        apply H2. subst w2. cbn. rewrite map_app, in_app_iff. right.
        now left.
      * set (w1 := answered _ _ _ _).
        destruct (IH w1 Hnd) as (H1 & H2 & H3).
        repeat split; [exact H1 | exact H2 |].
        intros p [->|Hp] Hp'; [|now apply H3].
        apply H2. subst w1. cbn.
        apply (matching_In id (livsmedelskache w) r). rewrite Em. now left.
      * exfalso.
        assert (In id (map CacheRow.off_id (livsmedelskache w))) as Hin
          by (apply (matching_In id (livsmedelskache w) r);
              rewrite Em; now left).
        destruct (matching_unique id _ Hnd Hin) as [x Hx]. congruence.
    + destruct (IH w Hnd) as (H1 & H2 & H3).
      repeat split; [exact H1 | exact H2 |].
      intros p [->|Hp] Hp'; [congruence | now apply H3].
Qed.






(** C1, as amended. A search result without canonical identifier (no
    [off_id], no [barcode]) is passed over by [cacheSearchResults]: the call
    does exactly what it does on the results that have one, and on results
    that all lack one it sends nothing to the store and changes nothing. *)
Theorem cache_writer_skips_unidentified
    (env : Env) (products : list Raw.t) (w : World) :
  cacheSearchResults env products w
  = cacheSearchResults env (filter has_identifier products) w
  /\ cacheSearchResults env
       (filter (fun product => negb (has_identifier product)) products) w
     = (Done tt, w).
Proof.
  rewrite !cacheSearchResults_swallows. split.
  - now rewrite cache_each_skips.
  - rewrite cache_each_skips.
    replace (filter has_identifier
               (filter (fun product => negb (has_identifier product))
                  products)) with (@nil Raw.t); [reflexivity|].
    induction products as [|p rest IH]; [reflexivity|].
    cbn [filter]. destruct (has_identifier p) eqn:E; cbn [negb filter];
      [exact IH | now rewrite E].
Qed.

(** C1, as stated, fails: the search for "banana" that answers the one
    record [{ name: "Banana", calories: 89 }] returns it with a synthesized
    [off_id], yet no request reaches the store and the cache stays empty. *)
Lemma banana_search_inserts_no_row :
  let r := searchProductsByName (steady (Resolves (ArrayOf [banana]) None))
             (lit "banana") fresh in
  has_identifier banana = false
  /\ (exists p, fst r = Done [p]
                /\ FoodProduct.brand p = []
                /\ FoodProduct.off_id p = TString (lit "temp_1209"))
  /\ journal (snd r) = []
  /\ List.length (livsmedelskache (snd r))
     <> S (List.length (livsmedelskache fresh)).
Proof.
  cbv zeta. split; [reflexivity|]. split.
  - eexists. split; [vm_compute; reflexivity|]. split; reflexivity.
  - split; [reflexivity | vm_compute; discriminate].
Qed.

(* ------------------------------------------------------------------ *)
(** ** Running a sequence                                               *)
(* ------------------------------------------------------------------ *)

Lemma bind_run {A B} (c : M A) (k : A -> M B) (w w' : World) (a : A) :
  c w = (Done a, w') -> bind c k w = k a w'.
Proof. unfold bind. now intros ->. Qed.

Lemma bind_throws {A B} (c : M A) (k : A -> M B) (w w' : World)
    (e : Thrown) :
  c w = (Throws e, w') -> bind c k w = (Throws e, w').
Proof. unfold bind. now intros ->. Qed.

Lemma try_catch_run {A} (body : M A) (handler : Thrown -> M A)
    (w w' : World) (a : A) :
  body w = (Done a, w') -> try_catch body handler w = (Done a, w').
Proof. unfold try_catch. now intros ->. Qed.

Lemma try_catch_throws {A} (body : M A) (handler : Thrown -> M A)
    (w w' : World) (e : Thrown) :
  body w = (Throws e, w') -> try_catch body handler w = handler e w'.
Proof. unfold try_catch. now intros ->. Qed.

(* ------------------------------------------------------------------ *)
(** ** Normalization                                                    *)
(* ------------------------------------------------------------------ *)

Lemma tempIdAt_nonempty (name brand : text) (timestamp : N) :
  tempIdAt name brand timestamp <> [].
Proof. unfold tempIdAt. cbn [lit list_ascii_of_string map app]. discriminate. Qed.

Lemma or_zero_missing (v : numeric) : missing_number v -> or_zero v = Fin 0.
Proof. intros [-> | ->]; reflexivity. Qed.

Lemma or_string_missing (v : text) : missing v -> or_string v [] = [].
Proof. intros [-> | ->]; reflexivity. Qed.

Lemma truthy_string (v : text) :
  truthy v = true -> exists s, v = TString s /\ s <> [].
Proof.
  destruct v as [| |[|c s]]; try discriminate.
  intros _. exists (c :: s). split; [reflexivity | discriminate].
Qed.

(** [normalize] returns, reads the clock at most once and touches nothing
    else. *)
Lemma normalize_returns (env : Env) (item : Raw.t) (w : World) :
  exists p,
    fst (normalize env item w) = Done p
    /\ normalized item p
    /\ outside_clock (snd (normalize env item w)) = outside_clock w.
Proof.
  cbv beta iota delta [normalize bind ret generateTempId now].
  destruct (truthy (Raw.off_id item)) eqn:Eo;
    [|destruct (truthy (Raw.barcode item)) eqn:Eb];
    cbn [fst snd]; eexists; (split; [reflexivity|]); (split; [|reflexivity]);
    unfold normalized; cbn [FoodProduct.calories FoodProduct.protein
      FoodProduct.fat FoodProduct.carbs FoodProduct.brand
      FoodProduct.image_url FoodProduct.off_id];
    repeat split;
    try apply or_zero_missing; try apply or_string_missing;
    try congruence; try discriminate.
  - now apply truthy_string.
  - now apply truthy_string.
  - eexists. split; [reflexivity | apply tempIdAt_nonempty].
  - intros _ _. eexists. reflexivity.
Qed.

Lemma mapM_normalize_returns (env : Env) (items : list Raw.t) (w : World) :
  exists ps,
    fst (mapM (normalize env) items w) = Done ps
    /\ Forall2 normalized items ps
    /\ outside_clock (snd (mapM (normalize env) items w)) = outside_clock w.
Proof.
  revert w. induction items as [|item rest IH]; intros w.
  - exists []. cbn. auto.
  - destruct (normalize_returns env item w) as (p & Hp & Hn & Ho).
    destruct (normalize env item w) as [r w1] eqn:E1.
    cbn [fst snd] in *. subst r.
    destruct (IH w1) as (ps & Hps & Hall & Ho').
    destruct (mapM (normalize env) rest w1) as [r w2] eqn:E2.
    cbn [fst snd] in *. subst r.
    cbn [mapM]. erewrite !bind_run by eassumption.
    exists (p :: ps). unfold ret. cbn [fst snd]. rewrite Ho', Ho. auto.
Qed.

(** What [data.map] returns depends on the clock alone. *)
Lemma mapM_normalize_agree (env1 env2 : Env) (items : list Raw.t) :
  (forall k, Date_now env1 k = Date_now env2 k) ->
  forall w1 w2,
    clocked w1 = clocked w2 ->
    fst (mapM (normalize env1) items w1) = fst (mapM (normalize env2) items w2)
    /\ clocked (snd (mapM (normalize env1) items w1))
       = clocked (snd (mapM (normalize env2) items w2)).
Proof.
  intros Hnow. induction items as [|item rest IH]; intros w1 w2 Hc.
  - cbn. auto.
  - assert (fst (normalize env1 item w1) = fst (normalize env2 item w2)
            /\ clocked (snd (normalize env1 item w1))
               = clocked (snd (normalize env2 item w2))) as [Hf Hc'].
    { cbv beta iota delta [normalize bind ret generateTempId now].
      destruct (truthy (Raw.off_id item));
        [|destruct (truthy (Raw.barcode item))]; cbn [fst snd clocked];
        rewrite ?Hc, ?Hnow; auto. }
    destruct (normalize env1 item w1) as [[p1|e1] v1] eqn:E1,
             (normalize env2 item w2) as [[p2|e2] v2] eqn:E2;
      cbn [fst snd] in *; try discriminate.
    + injection Hf as <-.
      destruct (IH v1 v2 Hc') as [Hf' Hc''].
      destruct (mapM (normalize env1) rest v1) as [[ps1|x1] u1] eqn:E3,
               (mapM (normalize env2) rest v2) as [[ps2|x2] u2] eqn:E4;
        cbn [fst snd] in *; try discriminate; cbn [mapM].
      * injection Hf' as <-.
        rewrite (@bind_run _ _ _ _ _ _ _ E1), (@bind_run _ _ _ _ _ _ _ E2),
          (@bind_run _ _ _ _ _ _ _ E3), (@bind_run _ _ _ _ _ _ _ E4).
        cbn. auto.
      * injection Hf' as <-.
        rewrite (@bind_run _ _ _ _ _ _ _ E1), (@bind_run _ _ _ _ _ _ _ E2),
          (@bind_throws _ _ _ _ _ _ _ E3), (@bind_throws _ _ _ _ _ _ _ E4).
        cbn. auto.
    + injection Hf as <-. cbn [mapM].
      rewrite (@bind_throws _ _ _ _ _ _ _ E1), (@bind_throws _ _ _ _ _ _ _ E2).
      cbn. auto.
Qed.

(* ------------------------------------------------------------------ *)
(** ** One attempt                                                      *)
(* ------------------------------------------------------------------ *)

Lemma outside_store_fields (w w' : World) :
  outside_store w' = outside_store w ->
  invoked w' = invoked w /\ sampled w' = sampled w
  /\ clocked w' = clocked w /\ slept w' = slept w.
Proof. unfold outside_store. intros E. injection E. auto. Qed.

Lemma outside_clock_fields (w w' : World) :
  outside_clock w' = outside_clock w ->
  invoked w' = invoked w /\ sampled w' = sampled w /\ slept w' = slept w.
Proof. unfold outside_clock. intros E. injection E. auto. Qed.

(** A failing attempt hands its error to the [catch], one call later. *)
Lemma attempt_body_caught (env : Env) (query : jsstring) (w : World)
    (err : Thrown) :
  caught (functions_invoke env query (invoked w)) = Some err ->
  attempt_body env query w = (Throws err, called w).
Proof.
  unfold caught, attempt_body, bind, invoke, throw.
  destruct (functions_invoke env query (invoked w)) as [e | data [error|]];
    cbv beta iota.
  - now intros [= <-].
  - destruct (status_is_404 error); [discriminate | now intros [= <-]].
  - destruct data; try discriminate; now intros [= <-].
Qed.

(** Any other attempt returns from the function: nothing on a 404 status,
    the normalized items of the array otherwise.  It does not sleep and does
    not draw random numbers. *)
Lemma attempt_body_returns (env : Env) (query : jsstring) (w : World) :
  caught (functions_invoke env query (invoked w)) = None ->
  exists ps items,
    fst (attempt_body env query w) = Done ps
    /\ Forall2 normalized items ps
    /\ ((ps = [] /\ items = []
         /\ answers_404 (functions_invoke env query (invoked w)) = true)
        \/ functions_invoke env query (invoked w)
           = Resolves (ArrayOf items) None)
    /\ invoked (snd (attempt_body env query w)) = S (invoked w)
    /\ sampled (snd (attempt_body env query w)) = sampled w
    /\ slept (snd (attempt_body env query w)) = slept w.
Proof.
  unfold caught, answers_404, attempt_body.
  destruct (functions_invoke env query (invoked w))
    as [e | data [error|]] eqn:Eo; [discriminate | |].
  - destruct (status_is_404 error) eqn:E404; [intros _ | discriminate].
    exists [], []. unfold bind, invoke. rewrite Eo, E404. cbn.
    repeat split; auto.
  - destruct data as [| |items]; try discriminate. intros _.
    assert (invoke env query w = (Done (ArrayOf items, None), called w))
      as Ei by (unfold invoke; now rewrite Eo).
    rewrite (@bind_run _ _ _ _ _ _ _ Ei). cbv beta iota.
    pose proof (cacheSearchResults_swallows env items (called w)) as Ec.
    rewrite (@bind_run _ _ _ _ _ _ _ Ec).
    destruct (cache_each_effect env items (called w))
      as (events & added & (_ & _ & _ & Ho) & _).
    apply outside_store_fields in Ho as (Hi & Hs & _ & Hz).
    destruct (mapM_normalize_returns env items
                (snd (cache_each env items (called w))))
      as (ps & Hps & Hall & Ho').
    apply outside_clock_fields in Ho' as (Hi' & Hs' & Hz').
    exists ps, items. rewrite Hi', Hs', Hz', Hi, Hs, Hz. cbn. auto 10.
Qed.

Lemma exhausted_run (err : Thrown) (w : World) :
  exhausted err w = (verdict err, w).
Proof.
  unfold exhausted, verdict, mentions_404, network_class, message_includes,
    ret, throw.
  cbv zeta.
  destruct (truthy (err_message err)); cbn [andb orb]; [|reflexivity].
  destruct (includes (ToString (err_message err)) (lit "404"));
    [reflexivity|].
  destruct (includes (ToString (err_message err)) (lit "Network")
            || includes (ToString (err_message err)) (lit "Failed to fetch")
            || includes (ToString (err_message err)) (lit "HTTP error"));
    reflexivity.
Qed.

Lemma back_off_run (env : Env) (attempt : nat) (w : World) :
  back_off env attempt w = (Done tt, backed_off env attempt w).
Proof. reflexivity. Qed.

(* ------------------------------------------------------------------ *)
(** ** The retry loop                                                   *)
(* ------------------------------------------------------------------ *)

(** The three iterations, by what the endpoint does in each. *)
Lemma search_cases (env : Env) (query : jsstring) (w : World) :
  let w1 := backed_off env 1 (called w) in
  let w2 := backed_off env 2 (called w1) in
  searchProductsByName env query w
  = match caught (functions_invoke env query (invoked w)) with
    | None => attempt_body env query w
    | Some _ =>
        match caught (functions_invoke env query (S (invoked w))) with
        | None => attempt_body env query w1
        | Some _ =>
            match caught (functions_invoke env query (S (S (invoked w)))) with
            | None => attempt_body env query w2
            | Some err => exhausted err (called w2)
            end
        end
    end.
Proof.
  cbv zeta. unfold searchProductsByName, maxRetries.
  assert (forall v handler,
             caught (functions_invoke env query (invoked v)) = None ->
             try_catch (attempt_body env query) handler v
             = attempt_body env query v) as Hreturn.
  { intros v handler Hv.
    destruct (attempt_body_returns env query v Hv) as (ps & _ & Hps & _).
    destruct (attempt_body env query v) as [r v'] eqn:E.
    cbn [fst] in Hps. subst r.
    now rewrite (@try_catch_run _ _ _ _ _ _ E). }
  cbn [attempts_from Nat.ltb Nat.leb Nat.eqb maxRetries].
  destruct (caught (functions_invoke env query (invoked w))) as [e0|] eqn:C0;
    [|now apply Hreturn].
  rewrite (@try_catch_throws _ _ _ _ _ _ (attempt_body_caught _ _ _ _ C0)).
  rewrite (@bind_run _ _ _ _ _ _ _ (back_off_run env 1 (called w))).
  change (invoked (backed_off env 1 (called w))) with (S (invoked w)) in *.
  destruct (caught (functions_invoke env query (S (invoked w))))
    as [e1|] eqn:C1; [|now apply Hreturn].
  rewrite (@try_catch_throws _ _ _ _ _ _
             (attempt_body_caught _ _ (backed_off env 1 (called w)) _ C1)).
  rewrite (@bind_run _ _ _ _ _ _ _
             (back_off_run env 2 (called (backed_off env 1 (called w))))).
  destruct (caught (functions_invoke env query (S (S (invoked w)))))
    as [e2|] eqn:C2; [|now apply Hreturn].
  now rewrite (@try_catch_throws _ _ _ _ _ _
                 (attempt_body_caught _ _
                    (backed_off env 2 (called (backed_off env 1 (called w))))
                    _ C2)).
Qed.

Lemma attempt_fails_caught (o : InvokeOutcome) :
  attempt_fails o = true -> exists err, caught o = Some err.
Proof.
  unfold attempt_fails. destruct (caught o) as [err|]; [eauto | discriminate].
Qed.

Lemma caught_attempt_fails (o : InvokeOutcome) (err : Thrown) :
  caught o = Some err -> attempt_fails o = true.
Proof. unfold attempt_fails. now intros ->. Qed.

Lemma returns_not_fails (o : InvokeOutcome) :
  caught o = None -> attempt_fails o = false.
Proof. unfold attempt_fails. now intros ->. Qed.

Lemma answers_404_caught (o : InvokeOutcome) :
  answers_404 o = true -> caught o = None.
Proof.
  destruct o as [e | data [error|]]; cbn; try discriminate. now intros ->.
Qed.

Lemma attempt_body_404 (env : Env) (query : jsstring) (w : World) :
  answers_404 (functions_invoke env query (invoked w)) = true ->
  attempt_body env query w = (Done [], called w).
Proof.
  unfold answers_404, attempt_body, bind, invoke.
  destruct (functions_invoke env query (invoked w)) as [e | data [error|]];
    cbv beta iota; try discriminate.
  now intros ->.
Qed.

(** *** Rounding keeps integer bounds *)

Lemma two_power_nonneg (k : Z) :
  (0 <= k)%Z -> Double.two_power k = inject_Z (2 ^ k).
Proof.
  intros H. unfold Double.two_power.
  destruct (Z.leb_spec 0 k); [reflexivity | lia].
Qed.

Lemma two_power_neg (k : Z) :
  (k < 0)%Z -> Double.two_power k = Qinv (inject_Z (2 ^ (- k))).
Proof.
  intros H. unfold Double.two_power.
  destruct (Z.leb_spec 0 k); [lia | reflexivity].
Qed.

Lemma nearest_even_ge (N : Z) (t : Q) :
  (inject_Z N <= t)%Q -> (N <= Double.nearest_even t)%Z.
Proof.
  intros H. apply Qfloor_resp_le in H. rewrite Qfloor_Z in H.
  unfold Double.nearest_even.
  destruct (Qcompare (t - inject_Z (Qfloor t)) (1 # 2));
    [destruct (Z.even (Qfloor t))| |]; lia.
Qed.

Lemma nearest_even_le (N : Z) (t : Q) :
  (t <= inject_Z N)%Q -> (Double.nearest_even t <= N)%Z.
Proof.
  intros H. pose proof (Qfloor_resp_le _ _ H) as Hf. rewrite Qfloor_Z in Hf.
  unfold Double.nearest_even.
  destruct (Z.eq_dec (Qfloor t) N) as [E | E].
  - assert (t - inject_Z (Qfloor t) < 1 # 2)%Q as Hlt.
    { rewrite E. lra. }
    destruct (Qcompare (t - inject_Z (Qfloor t)) (1 # 2)) eqn:Ec; [| lia |].
    + apply Qeq_alt in Ec. lra.
    + apply Qgt_alt in Ec. lra.
  - destruct (Qcompare (t - inject_Z (Qfloor t)) (1 # 2));
      [destruct (Z.even (Qfloor t))| |]; lia.
Qed.

Lemma exponent_le (x : Q) :
  (0 < x)%Q -> (x <= inject_Z 4096)%Q -> (Double.exponent x <= 12)%Z.
Proof.
  intros Hpos Hle.
  assert (Z.log2 (Qnum x) - Z.log2 (Zpos (Qden x)) <= 12)%Z as Hd.
  { destruct x as [p q]. unfold Qlt, Qle in *.
    cbn [Qnum Qden inject_Z] in *.
    assert (p <= Zpos q * 2 ^ 12)%Z as Hp by lia.
    apply Z.log2_le_mono in Hp.
    rewrite Z.log2_mul_pow2 in Hp by lia. lia. }
  unfold Double.exponent.
  destruct (Qle_bool _ x); lia.
Qed.

(** Up to 4096 every integer is a double, and rounding is to the nearest:
    a value between two integers is rounded to a double between them. *)
Lemma round_between (lo hi : Z) (x : Q) :
  (0 <= lo)%Z -> (hi <= 4096)%Z ->
  (inject_Z lo <= x)%Q -> (x <= inject_Z hi)%Q ->
  (inject_Z lo <= Double.round x)%Q /\ (Double.round x <= inject_Z hi)%Q.
Proof.
  intros Hlo Hhi Hl Hu.
  assert (0 <= inject_Z lo)%Q as Hlo' by (rewrite <- (Zle_Qle 0); exact Hlo).
  unfold Double.round.
  destruct (Qcompare x 0) eqn:Ec.
  - apply Qeq_alt in Ec. split; lra.
  - apply Qlt_alt in Ec. lra.
  - apply Qgt_alt in Ec.
    assert (x <= inject_Z 4096)%Q as H4096.
    { apply Qle_trans with (inject_Z hi); [exact Hu|].
      rewrite <- Zle_Qle. exact Hhi. }
    pose proof (exponent_le x Ec H4096) as He.
    unfold Double.round_positive.
    set (e := Z.max (Double.exponent x) (-1022)).
    assert (e <= 12)%Z as He' by (subst e; lia).
    rewrite (two_power_nonneg (52 - e)) by lia.
    rewrite (two_power_neg (e - 52)) by lia.
    replace (- (e - 52))%Z with (52 - e)%Z by lia.
    set (P := (2 ^ (52 - e))%Z).
    assert (0 < P)%Z as HP by (subst P; apply Z.pow_pos_nonneg; lia).
    assert (0 < inject_Z P)%Q as HP' by (rewrite <- (Zlt_Qlt 0); exact HP).
    rewrite Qred_correct.
    set (m := Double.nearest_even (x * inject_Z P)).
    split.
    + apply Qle_shift_div_l; [exact HP'|].
      rewrite <- inject_Z_mult, <- Zle_Qle. subst m.
      apply nearest_even_ge. rewrite inject_Z_mult.
      apply Qmult_le_compat_r; [exact Hl | lra].
    + apply Qle_shift_div_r; [exact HP'|].
      rewrite <- inject_Z_mult, <- Zle_Qle. subst m.
      apply nearest_even_le. rewrite inject_Z_mult.
      apply Qmult_le_compat_r; [exact Hu | lra].
Qed.

(** *** Rounding is to the nearest double, ties to even *)

Lemma two_power_Qpower (k : Z) : (Double.two_power k == 2 ^ k)%Q.
Proof.
  unfold Double.two_power. destruct (Z.leb_spec 0 k).
  - now rewrite Zpower_Qpower.
  - rewrite Zpower_Qpower by lia. rewrite Qpower_opp, Qinv_involutive.
    reflexivity.
Qed.

Lemma two_power_pos (k : Z) : (0 < Double.two_power k)%Q.
Proof. rewrite two_power_Qpower. apply Qpower_0_lt. reflexivity. Qed.

Lemma two_power_add (j k : Z) :
  (Double.two_power (j + k) == Double.two_power j * Double.two_power k)%Q.
Proof. rewrite !two_power_Qpower. apply Qpower_plus. discriminate. Qed.

Lemma two_power_inverse (k : Z) :
  (Double.two_power k * Double.two_power (- k) == 1)%Q.
Proof. rewrite <- two_power_add, Z.add_opp_diag_r. reflexivity. Qed.

Lemma two_power_succ (k : Z) :
  (Double.two_power (k + 1) == 2 * Double.two_power k)%Q.
Proof. rewrite two_power_add. change (Double.two_power 1) with 2%Q. ring. Qed.

(** The integer chosen is within one half of [t]. *)
Lemma nearest_even_near (t : Q) :
  (Qabs (inject_Z (Double.nearest_even t) - t) <= 1 # 2)%Q.
Proof.
  pose proof (Qfloor_le t) as Hlo. pose proof (Qlt_floor t) as Hhi.
  rewrite inject_Z_plus in Hhi. change (inject_Z 1) with 1%Q in Hhi.
  apply Qabs_Qle_condition. unfold Double.nearest_even.
  destruct (Qcompare (t - inject_Z (Qfloor t)) (1 # 2)) eqn:Ec.
  - apply Qeq_alt in Ec.
    destruct (Z.even (Qfloor t)); [|rewrite inject_Z_plus;
      change (inject_Z 1) with 1%Q]; split; lra.
  - apply Qlt_alt in Ec. split; lra.
  - apply Qgt_alt in Ec. rewrite inject_Z_plus.
    change (inject_Z 1) with 1%Q. split; lra.
Qed.

Lemma nearest_even_tie (t : Q) :
  (Qabs (inject_Z (Double.nearest_even t) - t) == 1 # 2)%Q ->
  Z.even (Double.nearest_even t) = true.
Proof.
  pose proof (Qfloor_le t) as Hlo. pose proof (Qlt_floor t) as Hhi.
  rewrite inject_Z_plus in Hhi. change (inject_Z 1) with 1%Q in Hhi.
  unfold Double.nearest_even.
  destruct (Qcompare (t - inject_Z (Qfloor t)) (1 # 2)) eqn:Ec.
  - intros _. destruct (Z.even (Qfloor t)) eqn:Ev; [exact Ev|].
    rewrite Z.even_add, Ev. reflexivity.
  - apply Qlt_alt in Ec. intros H. exfalso.
    rewrite Qabs_neg in H by lra. lra.
  - apply Qgt_alt in Ec. rewrite inject_Z_plus.
    change (inject_Z 1) with 1%Q. intros H. exfalso.
    rewrite Qabs_pos in H by lra. lra.
Qed.

(** [exponent] is the binary exponent. *)
Lemma exponent_spec (x : Q) :
  (0 < x)%Q ->
  (Double.two_power (Double.exponent x) <= x)%Q
  /\ (x < Double.two_power (Double.exponent x + 1))%Q.
Proof.
  intros Hpos. destruct x as [p q].
  assert (0 < p)%Z as Hp by (unfold Qlt in Hpos; cbn in Hpos; lia).
  unfold Double.exponent. cbn [Qnum Qden].
  set (a := Z.log2 p). set (b := Z.log2 (Zpos q)).
  destruct (Z.log2_spec p Hp) as [Pa Pb]. fold a in Pa, Pb.
  destruct (Z.log2_spec (Zpos q) ltac:(lia)) as [Qa Qb]. fold b in Qa, Qb.
  assert (0 <= a)%Z as Ha by apply Z.log2_nonneg.
  assert (0 <= b)%Z as Hb by apply Z.log2_nonneg.
  assert (p # q == inject_Z p * / inject_Z (Zpos q))%Q as Hx
    by (rewrite (Qmake_Qdiv p q); reflexivity).
  assert (0 < inject_Z (Zpos q))%Q as Hq by reflexivity.
  assert (forall k, (0 <= k)%Z -> Double.two_power k == inject_Z (2 ^ k))%Q
    as Hnn.
  { intros k Hk. rewrite two_power_Qpower. now rewrite Zpower_Qpower. }
  (* 2^(a-b-1) < x < 2^(a-b+1) *)
  assert (Double.two_power (a - b - 1) <= p # q)%Q as Hlow.
  { replace (a - b - 1)%Z with (a + - (b + 1))%Z by lia.
    rewrite two_power_add.
    apply Qmult_le_r with (Double.two_power (b + 1));
      [apply two_power_pos|].
    rewrite <- Qmult_assoc, (Qmult_comm (Double.two_power (- (b + 1)))),
      two_power_inverse, Qmult_1_r.
    rewrite !Hnn by lia. rewrite Hx.
    apply Qmult_le_r with (inject_Z (Zpos q)); [exact Hq|].
    field_simplify; [|lra].
    rewrite <- !inject_Z_mult, <- Zle_Qle. nia. }
  assert (p # q < Double.two_power (a - b + 1))%Q as Hhigh.
  { replace (a - b + 1)%Z with ((a + 1) + - b)%Z by lia.
    rewrite two_power_add.
    apply Qmult_lt_r with (Double.two_power b); [apply two_power_pos|].
    rewrite <- Qmult_assoc, (Qmult_comm (Double.two_power (- b))),
      two_power_inverse, Qmult_1_r.
    rewrite !Hnn by lia. rewrite Hx.
    apply Qmult_lt_r with (inject_Z (Zpos q)); [exact Hq|].
    field_simplify; [|lra].
    rewrite <- !inject_Z_mult, <- Zlt_Qlt. nia. }
  destruct (Qle_bool (Double.two_power (a - b)) (p # q)) eqn:E.
  - apply Qle_bool_iff in E. split; assumption.
  - replace (a - b - 1 + 1)%Z with (a - b)%Z by lia. split; [exact Hlow|].
    apply Qnot_le_lt. intros H. apply Qle_bool_iff in H. congruence.
Qed.

(** The result is a significand of at most 53 bits at the exponent of [x]
    (or at the least exponent), within half a unit in the last place of
    [x]; exactly halfway, the significand is even. *)
Lemma round_positive_spec (x : Q) :
  (0 < x)%Q ->
  let e := Z.max (Double.exponent x) (-1022) in
  let m := Double.nearest_even (x * Double.two_power (52 - e)) in
  (0 <= m <= 2 ^ 53)%Z
  /\ (Double.round_positive x == inject_Z m * Double.two_power (e - 52))%Q
  /\ (Qabs (Double.round_positive x - x) <= Double.two_power (e - 53))%Q
  /\ ((Qabs (Double.round_positive x - x) == Double.two_power (e - 53))%Q ->
      Z.even m = true).
Proof.
  intros Hpos. cbv zeta.
  destruct (exponent_spec x Hpos) as [Hlo Hhi].
  set (e := Z.max (Double.exponent x) (-1022)).
  set (t := (x * Double.two_power (52 - e))%Q).
  set (m := Double.nearest_even t).
  pose proof (two_power_pos (52 - e)) as Hup.
  pose proof (two_power_pos (e - 52)) as Hdown.
  assert (Double.round_positive x == inject_Z m * Double.two_power (e - 52))%Q
    as Hval by (unfold Double.round_positive; fold e; fold t; fold m;
                apply Qred_correct).
  assert (Double.two_power (52 - e) * Double.two_power (e - 52) == 1)%Q
    as Hinv.
  { replace (e - 52)%Z with (- (52 - e))%Z by lia. apply two_power_inverse. }
  assert (x == t * Double.two_power (e - 52))%Q as Hx.
  { unfold t. rewrite <- Qmult_assoc, Hinv. ring. }
  assert (Double.two_power (e - 53) == (1 # 2) * Double.two_power (e - 52))%Q
    as Hhalf.
  { replace (e - 52)%Z with (e - 53 + 1)%Z by lia.
    rewrite two_power_succ. ring. }
  assert (Double.round_positive x - x
          == (inject_Z m - t) * Double.two_power (e - 52))%Q as Hdiff.
  { rewrite Hval.
    transitivity (inject_Z m * Double.two_power (e - 52)
                  - t * Double.two_power (e - 52))%Q;
      [rewrite <- Hx; reflexivity | ring]. }
  assert (Qabs (Double.round_positive x - x)
          == Qabs (inject_Z m - t) * Double.two_power (e - 52))%Q as Habs.
  { rewrite Hdiff, Qabs_Qmult. rewrite (Qabs_pos (Double.two_power _)); [reflexivity | lra]. }
  split; [|split; [exact Hval|split]].
  - split.
    + apply (nearest_even_ge 0). unfold t.
      change (inject_Z 0) with 0%Q. apply Qmult_le_0_compat; lra.
    + apply nearest_even_le. unfold t.
      apply Qle_trans with
        (Double.two_power (Double.exponent x + 1) * Double.two_power (52 - e))%Q.
      * apply Qmult_le_compat_r; lra.
      * rewrite <- two_power_add. rewrite two_power_Qpower.
        rewrite Zpower_Qpower by lia.
        apply Qpower_le_compat_l; [subst e; lia | discriminate].
  - rewrite Habs, Hhalf. apply Qmult_le_compat_r; [|lra].
    apply nearest_even_near.
  - rewrite Habs, Hhalf. intros H. apply nearest_even_tie.
    apply Qmult_inj_r in H; [exact H | lra].
Qed.

(** *** Back-off arithmetic *)

Lemma jitter_range (r : Q) :
  (0 <= r)%Q -> (r < 1)%Q ->
  (0 <= Double.mul r (inject_Z 200))%Q
  /\ (Double.mul r (inject_Z 200) <= inject_Z 200)%Q.
Proof.
  intros H0 H1. unfold Double.mul.
  apply (round_between 0 200); try lia; unfold inject_Z; nra.
Qed.

Lemma waitTime_range (i : nat) (jitter : Q) :
  i <= 1 ->
  (0 <= jitter)%Q -> (jitter <= inject_Z 200)%Q ->
  in_backoff_window i (waitTime (S i) jitter).
Proof.
  intros Hi H0 H1. unfold in_backoff_window, waitTime, baseDelay.
  assert (i = 0 \/ i = 1) as [-> | ->] by lia.
  - replace (Double.mul (inject_Z 1000) (inject_Z (2 ^ Z.of_nat (1 - 1))))
      with (inject_Z 1000) by (vm_compute; reflexivity).
    change (inject_Z (1000 * 2 ^ Z.of_nat 0)) with (inject_Z 1000).
    unfold Double.add.
    destruct (round_between 1000 1200 (inject_Z 1000 + jitter))
      as [L U]; try lia; unfold inject_Z in *; try lra.
  - replace (Double.mul (inject_Z 1000) (inject_Z (2 ^ Z.of_nat (2 - 1))))
      with (inject_Z 2000) by (vm_compute; reflexivity).
    change (inject_Z (1000 * 2 ^ Z.of_nat 1)) with (inject_Z 2000).
    unfold Double.add.
    destruct (round_between 2000 2200 (inject_Z 2000 + jitter))
      as [L U]; try lia; unfold inject_Z in *; try lra.
Qed.

Lemma backoff_waits_bounds (env : Env) (first n : nat) :
  unit_interval env ->
  n <= 2 ->
  (forall i wait, nth_error (backoff_waits env first n) i = Some wait ->
                  in_backoff_window i wait)
  /\ (total (backoff_waits env first n) <= inject_Z 3400)%Q
  /\ (n = 2 -> (inject_Z 3000 <= total (backoff_waits env first n))%Q).
Proof.
  intros Hr Hn.
  pose proof (Hr first) as [L0 U0]. pose proof (Hr (S first)) as [L1 U1].
  destruct (jitter_range _ L0 U0) as [J0 K0].
  destruct (jitter_range _ L1 U1) as [J1 K1].
  pose proof (waitTime_range 0 _ (Nat.le_0_l 1) J0 K0) as [A0 B0].
  pose proof (waitTime_range 1 _ (Nat.le_refl 1) J1 K1) as [A1 B1].
  change (inject_Z (1000 * 2 ^ Z.of_nat 0)) with (inject_Z 1000) in A0, B0.
  change (inject_Z (1000 * 2 ^ Z.of_nat 1)) with (inject_Z 2000) in A1, B1.
  set (w0 := waitTime 1 (Double.mul (Math_random env first) (inject_Z 200)))
    in *.
  set (w1 := waitTime 2 (Double.mul (Math_random env (S first))
                           (inject_Z 200))) in *.
  assert (n = 0 \/ n = 1 \/ n = 2) as [-> | [-> | ->]] by lia;
    unfold backoff_waits, total;
    cbn [seq map fold_right Nat.add]; fold w0; fold w1.
  - split; [|split; [unfold inject_Z; lra | lia]].
    intros [|i] wait; discriminate.
  - split; [|split; [unfold inject_Z in *; lra | lia]].
    intros [|[|i]] wait; cbn [nth_error]; try discriminate.
    intros [= <-]. split; assumption.
  - split; [|split; [unfold inject_Z in *; lra
                    | intros _; unfold inject_Z in *; lra]].
    intros [|[|[|i]]] wait; cbn [nth_error]; try discriminate;
      intros [= <-]; split; assumption.
Qed.

(** C2, as amended.  A call of [searchProductsByName] backs off [n <= 2]
    times and calls the endpoint [n + 1 <= 3] times.  It backs off exactly
    after each failed attempt that is not the third; the back-off after
    attempt [i + 1] lasts the double
    [baseDelay * Math.pow(2, i) + Math.random() * 200], which is at least
    [1000 * 2^i] ms and at most 200 ms more.  The delays of a call add up to
    at most 3400 ms, and to at least 3000 ms when the first two attempts
    fail. *)
Theorem search_attempts_and_backoff
    (env : Env) (query : jsstring) (w : World) :
  unit_interval env ->
  let w' := snd (searchProductsByName env query w) in
  let fails i := attempt_fails (functions_invoke env query (i + invoked w)) in
  exists n,
    n <= 2
    /\ invoked w' = S n + invoked w
    /\ slept w' = slept w ++ backoff_waits env (sampled w) n
    /\ (forall i, i < n -> fails i = true)
    /\ (fails 0 = true -> 1 <= n)
    /\ (fails 0 = true -> fails 1 = true -> n = 2)
    /\ (forall i wait,
          nth_error (backoff_waits env (sampled w) n) i = Some wait ->
          in_backoff_window i wait)
    /\ (total (backoff_waits env (sampled w) n) <= inject_Z 3400)%Q
    /\ (n = 2 ->
        (inject_Z 3000 <= total (backoff_waits env (sampled w) n))%Q).
Proof.
  intros Hr. cbv zeta. rewrite search_cases. cbv zeta.
  cbn [Nat.add].
  destruct (caught (functions_invoke env query (invoked w)))
    as [e0|] eqn:C0.
  2:{ destruct (attempt_body_returns env query w C0)
        as (ps & items & _ & _ & _ & Hi & _ & Hz).
      exists 0. rewrite Hi, Hz, (returns_not_fails _ C0).
      destruct (backoff_waits_bounds env (sampled w) 0 Hr)
        as (B1 & B2 & B3); [lia|].
      cbn [backoff_waits seq map] in *. rewrite app_nil_r.
      split_conj; auto; try lia; try discriminate. }
  apply caught_attempt_fails in C0.
  destruct (caught (functions_invoke env query (S (invoked w))))
    as [e1|] eqn:C1.
  2:{ set (w1 := backed_off env 1 (called w)) in *.
      change (S (invoked w)) with (invoked w1) in C1.
      destruct (attempt_body_returns env query w1 C1)
        as (ps & items & _ & _ & _ & Hi & _ & Hz).
      exists 1. rewrite Hi, Hz, C0. subst w1.
      change (S (invoked w)) with (invoked (backed_off env 1 (called w))).
      rewrite (returns_not_fails _ C1).
      destruct (backoff_waits_bounds env (sampled w) 1 Hr)
        as (B1 & B2 & B3); [lia|].
      split_conj; auto; try lia; try discriminate.
      intros [|i] Hi'; [exact C0 | lia]. }
  apply caught_attempt_fails in C1.
  destruct (backoff_waits_bounds env (sampled w) 2 Hr)
    as (B1 & B2 & B3); [lia|].
  assert (forall i, i < 2 ->
            attempt_fails (functions_invoke env query (i + invoked w)) = true)
    as Hfails by (intros [|[|i]] Hi'; [exact C0 | exact C1 | lia]).
  set (w2 := backed_off env 2 (called (backed_off env 1 (called w)))) in *.
  destruct (caught (functions_invoke env query (S (S (invoked w)))))
    as [e2|] eqn:C2.
  - rewrite exhausted_run. exists 2. cbn [snd]. subst w2.
    split_conj; auto.
    unfold backoff_waits.
    cbn [seq map slept called backed_off sampled Nat.add].
    now rewrite <- app_assoc.
  - change (S (S (invoked w))) with (invoked w2) in C2.
    destruct (attempt_body_returns env query w2 C2)
      as (ps & items & _ & _ & _ & Hi & _ & Hz).
    exists 2. rewrite Hi, Hz. subst w2.
    split_conj; auto.
    unfold backoff_waits.
    cbn [seq map slept called backed_off sampled Nat.add].
    now rewrite <- app_assoc.
Qed.

Lemma search_attempts_witness :
  let w' := snd (searchProductsByName offline (lit "banana") fresh) in
  exists n,
    n <= 2
    /\ invoked w' = S n + invoked fresh
    /\ slept w' = slept fresh ++ backoff_waits offline (sampled fresh) n
    /\ (forall i, i < n ->
          attempt_fails
            (functions_invoke offline (lit "banana") (i + invoked fresh))
          = true)
    /\ (attempt_fails
          (functions_invoke offline (lit "banana") (0 + invoked fresh))
        = true -> 1 <= n)
    /\ (attempt_fails
          (functions_invoke offline (lit "banana") (0 + invoked fresh))
        = true ->
        attempt_fails
          (functions_invoke offline (lit "banana") (1 + invoked fresh))
        = true -> n = 2)
    /\ (forall i wait,
          nth_error (backoff_waits offline (sampled fresh) n) i = Some wait ->
          in_backoff_window i wait)
    /\ (total (backoff_waits offline (sampled fresh) n) <= inject_Z 3400)%Q
    /\ (n = 2 ->
        (inject_Z 3000
         <= total (backoff_waits offline (sampled fresh) n))%Q).
Proof.
  apply (search_attempts_and_backoff offline (lit "banana") fresh).
  intros k. cbn. split; [discriminate | reflexivity].
Defined.

(** C2, as stated, fails: with every draw of [Math.random()] at
    [1 - 2^-52] and three refused attempts, each jitter is below 200, yet
    the sums round to the doubles 1200 and 2200: the waits are not less than
    [1000 * 2^i + 200], and they add up to 3400 ms, not to less. *)
Lemma backoff_total_reaches_3400 :
  let w' := snd (searchProductsByName offline_late_draws (lit "banana") fresh) in
  unit_interval offline_late_draws
  /\ Double.round last_draw = last_draw
  /\ (Double.mul last_draw (inject_Z 200) < inject_Z 200)%Q
  /\ slept w' = [inject_Z 1200; inject_Z 2200]
  /\ ~ (total (slept w') < inject_Z 3400)%Q.
Proof.
  cbv zeta.
  assert (slept (snd (searchProductsByName offline_late_draws (lit "banana")
                        fresh))
          = [inject_Z 1200; inject_Z 2200]) as E by (vm_compute; reflexivity).
  split_conj.
  - intros k. cbn. split; [discriminate | reflexivity].
  - vm_compute. reflexivity.
  - vm_compute. reflexivity.
  - exact E.
  - rewrite E. vm_compute. intros H. discriminate H.
Qed.

(** C3. On whichever attempt the endpoint answers with a 404 status (the
    first, or the second or third after failures before it), the call
    returns the empty sequence, throws nothing and calls the endpoint no
    more: the calls made are exactly the attempts up to that one, with one
    back-off between them, and the store is not contacted. *)
Theorem not_found_ends_search
    (env : Env) (query : jsstring) (w : World) (k : nat) :
  k <= 2 ->
  (forall i, i < k ->
     attempt_fails (functions_invoke env query (i + invoked w)) = true) ->
  answers_404 (functions_invoke env query (k + invoked w)) = true ->
  fst (searchProductsByName env query w) = Done []
  /\ invoked (snd (searchProductsByName env query w)) = S k + invoked w
  /\ slept (snd (searchProductsByName env query w))
     = slept w ++ backoff_waits env (sampled w) k
  /\ journal (snd (searchProductsByName env query w)) = journal w.
Proof.
  intros Hk Hfails H404. rewrite search_cases. cbv zeta.
  assert (k = 0 \/ k = 1 \/ k = 2) as [-> | [-> | ->]] by lia;
    cbn [Nat.add] in *.
  - rewrite (answers_404_caught _ H404), (attempt_body_404 _ _ _ H404).
    cbn. now rewrite app_nil_r.
  - destruct (attempt_fails_caught _ (Hfails 0 (Nat.lt_0_succ _)))
      as [e0 C0].
    cbn [Nat.add] in C0. rewrite C0.
    rewrite (answers_404_caught _ H404).
    rewrite (attempt_body_404 env query (backed_off env 1 (called w)) H404).
    cbn [fst snd]. auto.
  - destruct (attempt_fails_caught _ (Hfails 0 (Nat.lt_0_succ _)))
      as [e0 C0].
    cbn [Nat.add] in C0. rewrite C0.
    destruct (attempt_fails_caught _ (Hfails 1 (Nat.lt_succ_diag_r _)))
      as [e1 C1].
    cbn [Nat.add] in C1. rewrite C1.
    rewrite (answers_404_caught _ H404).
    rewrite (attempt_body_404 env query
               (backed_off env 2 (called (backed_off env 1 (called w))))
               H404).
    cbn [fst snd]. split_conj; auto.
    unfold backoff_waits.
    cbn [seq map slept called backed_off sampled Nat.add].
    now rewrite <- app_assoc.
Qed.

Lemma not_found_on_third_attempt_witness :
  fst (searchProductsByName late_not_found (lit "banana") fresh) = Done []
  /\ invoked (snd (searchProductsByName late_not_found (lit "banana") fresh))
     = 3 + invoked fresh
  /\ slept (snd (searchProductsByName late_not_found (lit "banana") fresh))
     = slept fresh ++ backoff_waits late_not_found (sampled fresh) 2
  /\ journal (snd (searchProductsByName late_not_found (lit "banana") fresh))
     = journal fresh.
Proof.
  apply (not_found_ends_search late_not_found (lit "banana") fresh 2).
  - lia.
  - intros [|[|i]] Hi; [reflexivity | reflexivity | lia].
  - reflexivity.
Defined.

(** What a call does once three attempts have failed, as the code has it:
    it answers [verdict] of the third error.  Nothing is ever thrown by a
    call but the cannot-connect error or an error carrying the third
    error's message (a fixed text if that message is empty or missing). *)
Theorem exhausted_search_verdict
    (env : Env) (query : jsstring) (w : World) :
  let r := fst (searchProductsByName env query w) in
  let o i := functions_invoke env query (i + invoked w) in
  (forall err,
      attempt_fails (o 0) = true -> attempt_fails (o 1) = true ->
      caught (o 2) = Some err ->
      r = verdict err
      /\ (mentions_404 err = true -> r = Done [])
      /\ (mentions_404 err = false -> network_class err = true ->
          r = Throws (Error msg_cannot_connect))
      /\ (mentions_404 err = false -> network_class err = false ->
          r = Throws (Error (or_string (err_message err) msg_generic))))
  /\ (forall e,
        r = Throws e ->
        exists err,
          attempt_fails (o 0) = true /\ attempt_fails (o 1) = true
          /\ caught (o 2) = Some err
          /\ mentions_404 err = false
          /\ (e = Error msg_cannot_connect
              \/ e = Error (or_string (err_message err) msg_generic))).
Proof.
  cbv zeta. rewrite search_cases. cbv zeta. cbn [Nat.add]. split.
  - intros err F0 F1 C2.
    destruct (attempt_fails_caught _ F0) as [e0 ->].
    destruct (attempt_fails_caught _ F1) as [e1 ->].
    rewrite C2, exhausted_run. cbn [fst]. unfold verdict.
    split; [reflexivity|].
    split_conj; intros H; rewrite H; try reflexivity; now intros ->.
  - intros e.
    destruct (caught (functions_invoke env query (invoked w)))
      as [e0|] eqn:C0.
    2:{ destruct (attempt_body_returns env query w C0) as (ps & _ & -> & _).
        discriminate. }
    destruct (caught (functions_invoke env query (S (invoked w))))
      as [e1|] eqn:C1.
    2:{ destruct (attempt_body_returns env query
                    (backed_off env 1 (called w)) C1) as (ps & _ & -> & _).
        discriminate. }
    destruct (caught (functions_invoke env query (S (S (invoked w)))))
      as [e2|] eqn:C2.
    2:{ destruct (attempt_body_returns env query
                    (backed_off env 2 (called (backed_off env 1 (called w))))
                    C2) as (ps & _ & -> & _).
        discriminate. }
    rewrite exhausted_run. cbn [fst]. unfold verdict. intros Hr.
    exists e2.
    rewrite (caught_attempt_fails _ _ C0), (caught_attempt_fails _ _ C1).
    destruct (mentions_404 e2); [discriminate|].
    destruct (network_class e2); injection Hr as <-; auto 10.
Qed.

Example offline_search_cannot_connect :
  fst (searchProductsByName offline (lit "banana") fresh)
  = Throws (Error msg_cannot_connect).
Proof.
  apply (proj1 (exhausted_search_verdict offline (lit "banana") fresh)
           (Error (lit "Network request failed")));
    reflexivity.
Qed.

(** C4, a defect of the code.  Three answers with status 500 and the message
    "timeout after 4045 ms" are three failed attempts, none of them a 404.
    The error of the third is not network-class and carries the message
    "Sokningen misslyckades: timeout after 4045 ms", which the claim has the
    call raise.  The call raises nothing: it returns the empty sequence, as
    for no results, because that text contains "404". *)
Lemma exhausted_on_status_500_returns_empty :
  let err := Error (msg_search_failed_prefix ++ lit "timeout after 4045 ms") in
  (forall k,
      attempt_fails (functions_invoke slow_server (lit "banana") k) = true
      /\ answers_404 (functions_invoke slow_server (lit "banana") k) = false
      /\ caught (functions_invoke slow_server (lit "banana") k) = Some err)
  /\ network_class err = false
  /\ invoked (snd (searchProductsByName slow_server (lit "banana") fresh)) = 3
  /\ fst (searchProductsByName slow_server (lit "banana") fresh) = Done []
  /\ ~ (exists e,
          fst (searchProductsByName slow_server (lit "banana") fresh)
          = Throws e).
Proof.
  cbv zeta.
  split; [intros k; split_conj; reflexivity|].
  split; [vm_compute; reflexivity|].
  split; [reflexivity|].
  assert (fst (searchProductsByName slow_server (lit "banana") fresh)
          = Done []) as E by (vm_compute; reflexivity).
  split; [exact E|]. intros [e He]. rewrite E in He. discriminate.
Qed.

(* ------------------------------------------------------------------ *)
(** ** The cache cannot be seen from the caller                         *)
(* ------------------------------------------------------------------ *)

Lemma outside_store_eq (w1 w2 : World) :
  invoked w1 = invoked w2 -> sampled w1 = sampled w2 ->
  clocked w1 = clocked w2 -> slept w1 = slept w2 ->
  outside_store w1 = outside_store w2.
Proof. unfold outside_store. congruence. Qed.

Lemma attempt_body_agree (env1 env2 : Env) (query : jsstring)
    (w1 w2 : World) :
  same_but_store env1 env2 ->
  outside_store w1 = outside_store w2 ->
  fst (attempt_body env1 query w1) = fst (attempt_body env2 query w2)
  /\ outside_store (snd (attempt_body env1 query w1))
     = outside_store (snd (attempt_body env2 query w2)).
Proof.
  intros (Hinv & _ & Hnow) Hw.
  apply outside_store_fields in Hw as (Hi & Hs & Hc & Hz).
  assert (outside_store (called w1) = outside_store (called w2)) as Hcalled
    by (apply outside_store_eq; cbn; congruence).
  destruct (caught (functions_invoke env1 query (invoked w1)))
    as [err|] eqn:C1.
  - pose proof C1 as C2. rewrite Hinv, Hi in C2.
    rewrite (attempt_body_caught _ _ _ _ C1), (attempt_body_caught _ _ _ _ C2).
    auto.
  - unfold caught in C1. unfold attempt_body.
    destruct (functions_invoke env1 query (invoked w1))
      as [e | data [error|]] eqn:Eo; [discriminate | |].
    + destruct (status_is_404 error) eqn:E404; [|discriminate].
      unfold bind, invoke. rewrite <- Hi, <- Hinv, Eo, E404. auto.
    + destruct data as [| |items]; try discriminate.
      assert (invoke env1 query w1 = (Done (ArrayOf items, None), called w1))
        as I1 by (unfold invoke; now rewrite Eo).
      assert (invoke env2 query w2 = (Done (ArrayOf items, None), called w2))
        as I2 by (unfold invoke; now rewrite <- Hi, <- Hinv, Eo).
      rewrite (bind_run _ _ _ _ _ I1), (bind_run _ _ _ _ _ I2). cbv beta iota.
      rewrite (bind_run _ _ _ _ _
                 (cacheSearchResults_swallows env1 items (called w1))),
              (bind_run _ _ _ _ _
                 (cacheSearchResults_swallows env2 items (called w2))).
      set (u1 := snd (cache_each env1 items (called w1))).
      set (u2 := snd (cache_each env2 items (called w2))).
      destruct (cache_each_effect env1 items (called w1))
        as (? & ? & (_ & _ & _ & O1) & _).
      destruct (cache_each_effect env2 items (called w2))
        as (? & ? & (_ & _ & _ & O2) & _).
      fold u1 in O1. fold u2 in O2.
      assert (outside_store u1 = outside_store u2) as Hu by congruence.
      apply outside_store_fields in Hu as (Hi' & Hs' & Hc' & Hz').
      destruct (mapM_normalize_agree env1 env2 items Hnow u1 u2 Hc')
        as [Hf Hclock].
      split; [exact Hf|].
      destruct (mapM_normalize_returns env1 items u1) as (? & _ & _ & K1).
      destruct (mapM_normalize_returns env2 items u2) as (? & _ & _ & K2).
      apply outside_clock_fields in K1 as (A1 & A2 & A3).
      apply outside_clock_fields in K2 as (B1 & B2 & B3).
      apply outside_store_eq; congruence.
Qed.

(** A call's result, its attempts and its delays do not depend on the store:
    not on what it holds, not on which of its requests fail. *)
Lemma search_agree (env1 env2 : Env) (query : jsstring) (w1 w2 : World) :
  same_but_store env1 env2 ->
  outside_store w1 = outside_store w2 ->
  fst (searchProductsByName env1 query w1)
  = fst (searchProductsByName env2 query w2)
  /\ outside_store (snd (searchProductsByName env1 query w1))
     = outside_store (snd (searchProductsByName env2 query w2)).
Proof.
  intros Henv Hw. rewrite !search_cases. cbv zeta.
  pose proof Henv as (Hinv & Hrand & _).
  pose proof (outside_store_fields _ _ Hw) as (Hi & Hs & Hc & Hz).
  rewrite !Hinv, Hi.
  assert (outside_store (backed_off env1 1 (called w1))
          = outside_store (backed_off env2 1 (called w2))) as Hw1
    by (apply outside_store_eq; cbn; rewrite ?Hrand; congruence).
  assert (outside_store
            (backed_off env1 2 (called (backed_off env1 1 (called w1))))
          = outside_store
              (backed_off env2 2 (called (backed_off env2 1 (called w2)))))
    as Hw2 by (apply outside_store_eq; cbn; rewrite ?Hrand; congruence).
  destruct (caught (functions_invoke env2 query (invoked w2)));
    [|now apply attempt_body_agree].
  destruct (caught (functions_invoke env2 query (S (invoked w2))));
    [|now apply attempt_body_agree].
  destruct (caught (functions_invoke env2 query (S (S (invoked w2)))));
    [|now apply attempt_body_agree].
  rewrite !exhausted_run. cbn [fst snd]. split; [reflexivity|].
  apply outside_store_eq; cbn; rewrite ?Hrand; congruence.
Qed.

(** C5. Nothing that goes wrong while caching reaches the caller of
    [searchProductsByName]: [cacheSearchResults] never throws, and with any
    script of store faults the call returns the same sequence (or throws the
    same error), after the same attempts and the same delays, as with a
    store on which every lookup and insert succeeds. *)
Theorem cache_failures_never_surface
    (env : Env) (query : jsstring) (w : World) (faults : nat -> Fault) :
  let flaky := with_faults env faults in
  let sound := with_faults env (fun _ => Healthy) in
  (forall products v, fst (cacheSearchResults flaky products v) = Done tt)
  /\ fst (searchProductsByName flaky query w)
     = fst (searchProductsByName sound query w)
  /\ outside_store (snd (searchProductsByName flaky query w))
     = outside_store (snd (searchProductsByName sound query w)).
Proof.
  cbv zeta. split.
  - intros products v. now rewrite cacheSearchResults_swallows.
  - apply search_agree; [|reflexivity].
    unfold same_but_store, with_faults. cbn. auto.
Qed.

(* ------------------------------------------------------------------ *)
(** ** What a call returns                                              *)
(* ------------------------------------------------------------------ *)



(* ------------------------------------------------------------------ *)
(** ** Further properties of the search                                 *)
(* ------------------------------------------------------------------ *)

Lemma or_zero_number (x : number) :
  number_truthy x = true -> or_zero (NNumber x) = x.
Proof. cbn. now intros ->. Qed.

Lemma or_string_truthy (v : text) :
  truthy v = true -> TString (or_string v []) = v.
Proof. destruct v as [| |[|c s]]; try discriminate. reflexivity. Qed.

Lemma normalize_keeps (env : Env) (item : Raw.t) (w : World) :
  exists p, fst (normalize env item w) = Done p /\ kept item p.
Proof.
  cbv beta iota delta [normalize bind ret generateTempId now].
  destruct (truthy (Raw.off_id item));
    [|destruct (truthy (Raw.barcode item))];
    cbn [fst]; eexists; (split; [reflexivity|]);
    unfold kept; cbn [FoodProduct.name FoodProduct.sugar FoodProduct.calories
      FoodProduct.protein FoodProduct.fat FoodProduct.carbs FoodProduct.brand
      FoodProduct.image_url];
    split_conj; try reflexivity;
    try (intros x -> Hx; now apply or_zero_number);
    try apply or_string_truthy.
Qed.

Lemma mapM_normalize_keeps (env : Env) (items : list Raw.t) (w : World) :
  exists ps,
    fst (mapM (normalize env) items w) = Done ps /\ Forall2 kept items ps.
Proof.
  revert w. induction items as [|item rest IH]; intros w.
  - exists []. cbn. auto.
  - destruct (normalize_keeps env item w) as (p & Hp & Hk).
    destruct (normalize env item w) as [r w1] eqn:E1.
    cbn [fst] in Hp. subst r.
    destruct (IH w1) as (ps & Hps & Hall).
    destruct (mapM (normalize env) rest w1) as [r w2] eqn:E2.
    cbn [fst] in Hps. subst r.
    cbn [mapM]. rewrite (bind_run _ _ _ _ _ E1), (bind_run _ _ _ _ _ E2).
    exists (p :: ps). unfold ret. cbn [fst]. auto.
Qed.

(** An attempt that is answered with an array: cache, then normalize. *)
Lemma attempt_body_array (env : Env) (query : jsstring) (w : World)
    (items : list Raw.t) :
  functions_invoke env query (invoked w) = Resolves (ArrayOf items) None ->
  attempt_body env query w
  = mapM (normalize env) items (snd (cache_each env items (called w))).
Proof.
  intros Eo. unfold attempt_body.
  assert (invoke env query w = (Done (ArrayOf items, None), called w))
    as Ei by (unfold invoke; now rewrite Eo).
  rewrite (bind_run _ _ _ _ _ Ei). cbv beta iota.
  now rewrite (bind_run _ _ _ _ _
                 (cacheSearchResults_swallows env items (called w))).
Qed.

Lemma array_returns (env : Env) (query : jsstring) (k : nat)
    (items : list Raw.t) :
  functions_invoke env query k = Resolves (ArrayOf items) None ->
  caught (functions_invoke env query k) = None.
Proof. now intros ->. Qed.

(** X1. When the first attempt is answered with an array, the call returns
    one record per item, in the order of the array and under the items'
    names, after that single call of the endpoint: it draws no random number
    and sleeps not at all. *)
Theorem first_answer_is_returned_at_once
    (env : Env) (query : jsstring) (w : World) (items : list Raw.t) :
  functions_invoke env query (invoked w) = Resolves (ArrayOf items) None ->
  exists products,
    fst (searchProductsByName env query w) = Done products
    /\ List.length products = List.length items
    /\ map FoodProduct.name products = map Raw.name items
    /\ invoked (snd (searchProductsByName env query w)) = S (invoked w)
    /\ sampled (snd (searchProductsByName env query w)) = sampled w
    /\ slept (snd (searchProductsByName env query w)) = slept w.
Proof.
  intros Eo. rewrite search_cases. cbv zeta.
  rewrite (array_returns _ _ _ _ Eo).
  destruct (attempt_body_returns env query w (array_returns _ _ _ _ Eo))
    as (ps & _ & Hps & _ & _ & Hi & Hs & Hz).
  exists ps. split; [exact Hps|].
  rewrite (attempt_body_array _ _ _ _ Eo) in Hps.
  destruct (mapM_normalize_keeps env items
              (snd (cache_each env items (called w)))) as (ps' & Hps' & Hk).
  rewrite Hps in Hps'. injection Hps' as <-.
  split; [symmetry; exact (Forall2_length Hk)|].
  split; [|auto].
  clear - Hk. induction Hk as [|item p items ps (Hn & _) _ IH];
    [reflexivity | cbn; now rewrite Hn, IH].
Qed.

Lemma first_answer_witness :
  exists products,
    fst (searchProductsByName
           (steady (Resolves (ArrayOf [banana; oat_milk]) None))
           (lit "milk") fresh) = Done products
    /\ List.length products = List.length [banana; oat_milk]
    /\ map FoodProduct.name products = map Raw.name [banana; oat_milk]
    /\ invoked (snd (searchProductsByName
                       (steady (Resolves (ArrayOf [banana; oat_milk]) None))
                       (lit "milk") fresh)) = S (invoked fresh)
    /\ sampled (snd (searchProductsByName
                       (steady (Resolves (ArrayOf [banana; oat_milk]) None))
                       (lit "milk") fresh)) = sampled fresh
    /\ slept (snd (searchProductsByName
                     (steady (Resolves (ArrayOf [banana; oat_milk]) None))
                     (lit "milk") fresh)) = slept fresh.
Proof.
  apply (first_answer_is_returned_at_once
           (steady (Resolves (ArrayOf [banana; oat_milk]) None))
           (lit "milk") fresh [banana; oat_milk]).
  reflexivity.
Defined.

Lemma caught_none_cases (o : InvokeOutcome) :
  caught o = None ->
  answers_404 o = true \/ exists items, o = Resolves (ArrayOf items) None.
Proof.
  destruct o as [e | data [error|]]; cbn; [discriminate | |].
  - destruct (status_is_404 error); [auto | discriminate].
  - destruct data; try discriminate. eauto.
Qed.

(** X2. Whatever a call returns, every record hands on what its raw item
    holds: the name and the sugar value as they are, each of calories,
    protein, fat and carbs that is a number other than zero, and a brand or
    image_url that is a non-empty string. *)
Theorem returned_records_keep_values
    (env : Env) (query : jsstring) (w : World)
    (products : list FoodProduct.t) :
  fst (searchProductsByName env query w) = Done products ->
  exists items,
    Forall2 kept items products
    /\ ((products = [] /\ items = [])
        \/ exists k,
             k <= 2
             /\ functions_invoke env query (k + invoked w)
                = Resolves (ArrayOf items) None).
Proof.
  rewrite search_cases. cbv zeta.
  assert (forall v k,
             invoked v = k + invoked w -> k <= 2 ->
             caught (functions_invoke env query (invoked v)) = None ->
             fst (attempt_body env query v) = Done products ->
             exists items,
               Forall2 kept items products
               /\ ((products = [] /\ items = [])
                   \/ exists k,
                        k <= 2
                        /\ functions_invoke env query (k + invoked w)
                           = Resolves (ArrayOf items) None)) as Hreturn.
  { intros v k Hv Hk C Hr.
    destruct (caught_none_cases _ C) as [H404 | [items Eo]].
    - rewrite (attempt_body_404 _ _ _ H404) in Hr. injection Hr as <-.
      exists []. split; [constructor | now left].
    - rewrite (attempt_body_array _ _ _ _ Eo) in Hr.
      destruct (mapM_normalize_keeps env items
                  (snd (cache_each env items (called v))))
        as (ps & Hps & Hk').
      rewrite Hr in Hps. injection Hps as <-.
      exists items. split; [exact Hk'|]. right. exists k.
      rewrite <- Hv. auto. }
  destruct (caught (functions_invoke env query (invoked w)))
    as [e0|] eqn:C0;
    [|apply (Hreturn w 0); auto].
  destruct (caught (functions_invoke env query (S (invoked w))))
    as [e1|] eqn:C1;
    [|apply (Hreturn (backed_off env 1 (called w)) 1); auto].
  destruct (caught (functions_invoke env query (S (S (invoked w)))))
    as [e2|] eqn:C2;
    [|apply (Hreturn
               (backed_off env 2 (called (backed_off env 1 (called w)))) 2);
      auto].
  rewrite exhausted_run. cbn [fst]. unfold verdict.
  destruct (mentions_404 e2); [|destruct (network_class e2); discriminate].
  intros [= <-]. exists []. split; [constructor | now left].
Qed.

Lemma returned_values_witness :
  let env := steady (Resolves (ArrayOf [banana; oat_milk]) None) in
  exists items,
    Forall2 kept items
      (returned (fst (searchProductsByName env (lit "milk") fresh)))
    /\ ((returned (fst (searchProductsByName env (lit "milk") fresh)) = []
         /\ items = [])
        \/ exists k,
             k <= 2
             /\ functions_invoke env (lit "milk") (k + invoked fresh)
                = Resolves (ArrayOf items) None).
Proof.
  apply (returned_records_keep_values
           (steady (Resolves (ArrayOf [banana; oat_milk]) None))
           (lit "milk") fresh).
  vm_compute. reflexivity.
Defined.

(* ------------------------------------------------------------------ *)
(** ** Further properties of the cache writer                           *)
(* ------------------------------------------------------------------ *)

Lemma cached_from_cons (product : Raw.t) (rest : list Raw.t)
    (added : list CacheRow.t) :
  Forall (cached_from rest) added ->
  Forall (cached_from (product :: rest)) added.
Proof.
  apply Forall_impl. intros row (p & Hin & Hid & Hrow).
  exists p. split; [now right | auto].
Qed.

Lemma cache_each_adds_identified (env : Env) (products : list Raw.t)
    (w : World) :
  exists added,
    livsmedelskache (snd (cache_each env products w))
    = livsmedelskache w ++ added
    /\ Forall (cached_from products) added.
Proof.
  revert w. induction products as [|product rest IH]; intros w.
  - exists []. cbn. rewrite app_nil_r. auto.
  - cbn [cache_each]. rewrite <- negb_orb.
    fold (has_identifier product). fold (canonical_id product).
    destruct (has_identifier product) eqn:Hid; cbn [negb].
    2:{ destruct (IH w) as (added & Hc & Hall).
        exists added. split; [exact Hc | now apply cached_from_cons]. }
    assert (cached_from (product :: rest)
              (cache_row_of (canonical_id product) product)) as Hrow
      by (exists product; split; [now left | auto]).
    unfold bind, select_maybeSingle, insert_cache.
    destruct (store_fault env (requested w));
      [destruct (match matching (canonical_id product) (livsmedelskache w)
                 with [_] => true | _ => false end)| |];
      cbn [requested answered];
      try destruct (store_fault env (S (requested w)));
      try match goal with
          | |- context [cache_each env rest ?w2] =>
              destruct (IH w2) as (added & Hc & Hall);
              apply (cached_from_cons product) in Hall;
              rewrite Hc; cbn [livsmedelskache answered]
          end;
      cbn [snd livsmedelskache answered];
      first [ exists added; split; [reflexivity | exact Hall]
            | exists (cache_row_of (canonical_id product) product :: added);
              split; [now rewrite <- app_assoc | now constructor]
            | exists []; split; [now rewrite app_nil_r | constructor] ].
Qed.

(** X3. Whatever the store does, the rows a pass of [cacheSearchResults]
    adds to the cache are rows of search results it was given that have an
    [off_id] or a [barcode], each keyed by that identifier: it never writes
    a row under a synthesized identifier or for a result without one. *)
Theorem cache_rows_come_from_identified_results
    (env : Env) (products : list Raw.t) (w : World) :
  exists added,
    livsmedelskache (snd (cacheSearchResults env products w))
    = livsmedelskache w ++ added
    /\ Forall (cached_from products) added
    /\ Forall (fun row => truthy (CacheRow.off_id row) = true) added.
Proof.
  rewrite cacheSearchResults_swallows. cbn [snd].
  destruct (cache_each_adds_identified env products w) as (added & Hc & Hall).
  exists added. split; [exact Hc|]. split; [exact Hall|].
  revert Hall. apply Forall_impl. intros row (p & _ & Hid & ->).
  cbn. unfold canonical_id, or_text. unfold has_identifier in Hid.
  destruct (truthy (Raw.off_id p)) eqn:E; [exact E | exact Hid].
Qed.

Lemma normalized_canonical (item : Raw.t) (p : FoodProduct.t) :
  normalized item p -> has_identifier item = true ->
  FoodProduct.off_id p = canonical_id item.
Proof.
  intros (_ & _ & _ & _ & _ & _ & _ & Hoff & Hbar & _) Hid.
  unfold canonical_id, or_text. unfold has_identifier in Hid.
  destruct (truthy (Raw.off_id item)) eqn:E; [now apply Hoff|].
  apply Hbar; [reflexivity | exact Hid].
Qed.

(** X4. With a store that carries out its requests and a cache whose
    identifiers are unique, a search whose first attempt is answered with an
    array leaves them unique, and every returned record whose item has an
    [off_id] or a [barcode] carries that identifier and is found under it in
    the cache exactly once. *)
Theorem identified_results_are_cached
    (env : Env) (query : jsstring) (w : World) (items : list Raw.t) :
  (forall k, store_fault env k = Healthy) ->
  NoDup (map CacheRow.off_id (livsmedelskache w)) ->
  functions_invoke env query (invoked w) = Resolves (ArrayOf items) None ->
  exists products,
    fst (searchProductsByName env query w) = Done products
    /\ NoDup (map CacheRow.off_id
                (livsmedelskache (snd (searchProductsByName env query w))))
    /\ Forall2
         (fun item p =>
            has_identifier item = true ->
            FoodProduct.off_id p = canonical_id item
            /\ List.length
                 (matching (FoodProduct.off_id p)
                    (livsmedelskache
                       (snd (searchProductsByName env query w)))) = 1)
         items products.
Proof.
  intros Hhealthy Hnd Eo. rewrite search_cases. cbv zeta.
  rewrite (array_returns _ _ _ _ Eo), (attempt_body_array _ _ _ _ Eo).
  set (u := snd (cache_each env items (called w))).
  destruct (cache_each_healthy env items Hhealthy (called w) Hnd)
    as (H1 & _ & H3).
  fold u in H1, H3.
  destruct (mapM_normalize_returns env items u) as (ps & Hps & Hall & Ho).
  assert (livsmedelskache (snd (mapM (normalize env) items u))
          = livsmedelskache u) as Hcache
    by (unfold outside_clock in Ho; now injection Ho).
  exists ps. rewrite Hcache. split; [exact Hps|]. split; [exact H1|].
  assert (forall l qs,
             Forall2 normalized l qs ->
             (forall item, In item l -> In item items) ->
             Forall2
               (fun item p =>
                  has_identifier item = true ->
                  FoodProduct.off_id p = canonical_id item
                  /\ List.length
                       (matching (FoodProduct.off_id p) (livsmedelskache u))
                     = 1) l qs) as Hgen.
  { intros l qs HF. induction HF as [|item p l qs Hn _ IH]; intros Hsub;
      constructor.
    - intros Hid. rewrite (normalized_canonical _ _ Hn Hid).
      split; [reflexivity|].
      destruct (matching_unique _ _ H1 (H3 item (Hsub item (or_introl eq_refl))
                                          Hid)) as [r ->].
      reflexivity.
    - apply IH. intros i Hi. apply Hsub. now right. }
  apply Hgen; auto.
Qed.

Lemma identified_results_witness :
  let env := steady (Resolves (ArrayOf [banana; oat_milk; oat_milk]) None) in
  exists products,
    fst (searchProductsByName env (lit "milk") fresh) = Done products
    /\ NoDup (map CacheRow.off_id
                (livsmedelskache
                   (snd (searchProductsByName env (lit "milk") fresh))))
    /\ Forall2
         (fun item p =>
            has_identifier item = true ->
            FoodProduct.off_id p = canonical_id item
            /\ List.length
                 (matching (FoodProduct.off_id p)
                    (livsmedelskache
                       (snd (searchProductsByName env (lit "milk") fresh))))
               = 1)
         [banana; oat_milk; oat_milk] products.
Proof.
  apply (identified_results_are_cached
           (steady (Resolves (ArrayOf [banana; oat_milk; oat_milk]) None))
           (lit "milk") fresh [banana; oat_milk; oat_milk]).
  - reflexivity.
  - constructor.
  - reflexivity.
Defined.

(** X5. Three attempts that are each answered without error but not with an
    array (no data, or data that is no array) end in the error "Ogiltig
    respons fran servern" (with a-ring), after three calls of the endpoint
    and two back-offs; the store is not contacted. *)
Theorem malformed_answers_raise_invalid_response
    (env : Env) (query : jsstring) (w : World) :
  (forall i, i < 3 ->
     malformed (functions_invoke env query (i + invoked w)) = true) ->
  fst (searchProductsByName env query w)
  = Throws (Error msg_invalid_response)
  /\ invoked (snd (searchProductsByName env query w)) = 3 + invoked w
  /\ List.length (slept (snd (searchProductsByName env query w)))
     = 2 + List.length (slept w)
  /\ journal (snd (searchProductsByName env query w)) = journal w.
Proof.
  intros Hmal.
  assert (forall o, malformed o = true ->
                    caught o = Some (Error msg_invalid_response)) as Hc.
  { intros [e | data [error|]]; cbn; try discriminate.
    destruct data; try discriminate; reflexivity. }
  rewrite search_cases. cbv zeta.
  pose proof (Hc _ (Hmal 0 ltac:(lia))) as C0.
  pose proof (Hc _ (Hmal 1 ltac:(lia))) as C1.
  pose proof (Hc _ (Hmal 2 ltac:(lia))) as C2.
  cbn [Nat.add] in C0, C1, C2. rewrite C0, C1, C2, exhausted_run.
  cbn [fst snd]. split; [reflexivity|].
  cbn [invoked slept journal called backed_off].
  rewrite !length_app. cbn [List.length]. split_conj; auto; lia.
Qed.

Lemma malformed_answers_witness :
  fst (searchProductsByName (steady (Resolves NotArray None))
         (lit "banana") fresh)
  = Throws (Error msg_invalid_response)
  /\ invoked (snd (searchProductsByName (steady (Resolves NotArray None))
                     (lit "banana") fresh)) = 3 + invoked fresh
  /\ List.length
       (slept (snd (searchProductsByName (steady (Resolves NotArray None))
                      (lit "banana") fresh)))
     = 2 + List.length (slept fresh)
  /\ journal (snd (searchProductsByName (steady (Resolves NotArray None))
                     (lit "banana") fresh)) = journal fresh.
Proof.
  apply (malformed_answers_raise_invalid_response
           (steady (Resolves NotArray None)) (lit "banana") fresh).
  intros i _. reflexivity.
Defined.

(* ------------------------------------------------------------------ *)
(** ** Further properties of addFoodToMeal                              *)
(* ------------------------------------------------------------------ *)

(** The identifier [addFoodToMeal] synthesizes in world [w]. *)
Lemma ensure_off_id_known (env : Env) (product : FoodProduct.t) (w : World) :
  truthy (FoodProduct.off_id product) = true ->
  ensure_off_id env product w = (Done (FoodProduct.off_id product), w).
Proof. unfold ensure_off_id. now intros ->. Qed.

(** X6. For a product that has an [off_id], [addFoodToMeal] sends one
    request, the insert of the meal entry, and nothing else: it reads no
    clock and leaves the cache alone.  The entry carries the product's
    [off_id] and name, the given log and the lower-cased meal type
    ("frukost" if none is given); it is stored exactly when the call returns
    normally. *)
Theorem addFoodToMeal_with_identifier
    (env : Env) (logId : jsstring) (product : FoodProduct.t)
    (quantityGrams : number) (mealType : option jsstring) (w : World) :
  truthy (FoodProduct.off_id product) = true ->
  let r := addFoodToMeal env logId product quantityGrams mealType w in
  let entry := meal_entry env logId product quantityGrams mealType
                 (FoodProduct.off_id product) in
  exists stored,
    journal (snd r) = journal w ++ [InsertMeal entry stored]
    /\ (stored = true <-> fst r = Done tt)
    /\ maltidsinlagg (snd r)
       = (if stored then maltidsinlagg w ++ [entry] else maltidsinlagg w)
    /\ livsmedelskache (snd r) = livsmedelskache w
    /\ clocked (snd r) = clocked w
    /\ requested (snd r) = S (requested w).
Proof.
  intros Hid. cbv zeta. unfold addFoodToMeal, try_catch.
  rewrite (bind_run _ _ _ _ _ (ensure_off_id_known env product w Hid)).
  unfold bind, insert_meal, meal_entry, throw, ret.
  destruct (store_fault env (requested w)); cbn [fst snd answered journal
    maltidsinlagg livsmedelskache clocked requested].
  - exists true. split_conj; auto. tauto.
  - exists false. split_conj; auto. split; discriminate.
  - exists false. split_conj; auto. split; discriminate.
Qed.

Lemma addFoodToMeal_with_identifier_witness :
  let r := addFoodToMeal (faulty_at 5 Healthy) (lit "log-1") oat_milk_product
             (Fin (inject_Z 250)) None fresh in
  let entry := meal_entry (faulty_at 5 Healthy) (lit "log-1") oat_milk_product
                 (Fin (inject_Z 250)) None
                 (FoodProduct.off_id oat_milk_product) in
  exists stored,
    journal (snd r) = journal fresh ++ [InsertMeal entry stored]
    /\ (stored = true <-> fst r = Done tt)
    /\ maltidsinlagg (snd r)
       = (if stored then maltidsinlagg fresh ++ [entry]
          else maltidsinlagg fresh)
    /\ livsmedelskache (snd r) = livsmedelskache fresh
    /\ clocked (snd r) = clocked fresh
    /\ requested (snd r) = S (requested fresh).
Proof.
  apply (addFoodToMeal_with_identifier (faulty_at 5 Healthy) (lit "log-1")
           oat_milk_product (Fin (inject_Z 250)) None fresh).
  reflexivity.
Defined.

(** What [ensure_off_id] does for a product without identifier, by what the
    store does with the insert. *)
Lemma ensure_off_id_synthesized (env : Env) (product : FoodProduct.t)
    (w : World) :
  truthy (FoodProduct.off_id product) = false ->
  let id := TString (tempIdAt (FoodProduct.name product)
                       (TString (FoodProduct.brand product))
                       (Date_now env (clocked w))) in
  let row := cache_row_of_product id product in
  let ticked := snd (now env w) in
  ensure_off_id env product w
  = match store_fault env (requested w) with
    | Healthy =>
        (Done id, answered ticked (livsmedelskache w ++ [row])
                    (maltidsinlagg w) (InsertCache row true))
    | Fails _ =>
        (Done id, answered ticked (livsmedelskache w) (maltidsinlagg w)
                    (InsertCache row false))
    | Crashes e =>
        (Throws e, answered ticked (livsmedelskache w) (maltidsinlagg w)
                     (InsertCache row false))
    end.
Proof.
  intros Hid. cbv zeta.
  cbv beta iota delta [ensure_off_id bind generateTempId now insert_cache ret].
  rewrite Hid. cbn [negb requested snd livsmedelskache maltidsinlagg].
  destruct (store_fault env (requested w)); reflexivity.
Qed.

(** X7. For a product without [off_id] and a store that carries out both
    requests, [addFoodToMeal] adds one row to the cache and one meal entry,
    both under the identifier synthesized from the product's name and brand
    at the clock's reading, so that the entry refers to the row just
    cached.  The cache insert is sent without a lookup before it. *)
Theorem addFoodToMeal_caches_then_logs
    (env : Env) (logId : jsstring) (product : FoodProduct.t)
    (quantityGrams : number) (mealType : option jsstring) (w : World) :
  truthy (FoodProduct.off_id product) = false ->
  store_fault env (requested w) = Healthy ->
  store_fault env (S (requested w)) = Healthy ->
  let r := addFoodToMeal env logId product quantityGrams mealType w in
  let id := TString (tempIdAt (FoodProduct.name product)
                       (TString (FoodProduct.brand product))
                       (Date_now env (clocked w))) in
  let row := cache_row_of_product id product in
  let entry := meal_entry env logId product quantityGrams mealType id in
  fst r = Done tt
  /\ livsmedelskache (snd r) = livsmedelskache w ++ [row]
  /\ maltidsinlagg (snd r) = maltidsinlagg w ++ [entry]
  /\ MealEntry.off_id entry = CacheRow.off_id row
  /\ journal (snd r)
     = journal w ++ [InsertCache row true; InsertMeal entry true].
Proof.
  intros Hid H0 H1. cbv zeta. unfold addFoodToMeal, try_catch.
  pose proof (ensure_off_id_synthesized env product w Hid) as E.
  cbv zeta in E. rewrite H0 in E.
  rewrite (bind_run _ _ _ _ _ E).
  unfold bind, insert_meal, meal_entry, throw, ret.
  cbn [requested answered]. cbn [now snd requested]. rewrite H1.
  cbn [fst snd answered journal maltidsinlagg livsmedelskache].
  split_conj; auto. now rewrite <- app_assoc.
Qed.

Lemma addFoodToMeal_caches_witness :
  let r := addFoodToMeal (faulty_at 5 Healthy) (lit "log-1") banana_product
             (Fin (inject_Z 120)) (Some (lit "lunch")) fresh in
  let id := TString (tempIdAt (FoodProduct.name banana_product)
                       (TString (FoodProduct.brand banana_product))
                       (Date_now (faulty_at 5 Healthy) (clocked fresh))) in
  let row := cache_row_of_product id banana_product in
  let entry := meal_entry (faulty_at 5 Healthy) (lit "log-1") banana_product
                 (Fin (inject_Z 120)) (Some (lit "lunch")) id in
  fst r = Done tt
  /\ livsmedelskache (snd r) = livsmedelskache fresh ++ [row]
  /\ maltidsinlagg (snd r) = maltidsinlagg fresh ++ [entry]
  /\ MealEntry.off_id entry = CacheRow.off_id row
  /\ journal (snd r)
     = journal fresh ++ [InsertCache row true; InsertMeal entry true].
Proof.
  apply (addFoodToMeal_caches_then_logs (faulty_at 5 Healthy) (lit "log-1")
           banana_product (Fin (inject_Z 120)) (Some (lit "lunch")) fresh);
    reflexivity.
Defined.

(** X8. [addFoodToMeal] throws no error of its own: what it throws is the
    error the store gave to its first or its second request, by resolving
    with it or by rejecting. *)
Theorem addFoodToMeal_throws_store_errors
    (env : Env) (logId : jsstring) (product : FoodProduct.t)
    (quantityGrams : number) (mealType : option jsstring) (w : World)
    (e : Thrown) :
  fst (addFoodToMeal env logId product quantityGrams mealType w) = Throws e ->
  exists k,
    k <= 1
    /\ (store_fault env (k + requested w) = Fails e
        \/ store_fault env (k + requested w) = Crashes e).
Proof.
  unfold addFoodToMeal, try_catch.
  destruct (truthy (FoodProduct.off_id product)) eqn:Hid.
  - rewrite (bind_run _ _ _ _ _ (ensure_off_id_known env product w Hid)).
    unfold bind, insert_meal, throw, ret.
    destruct (store_fault env (requested w)) eqn:F; cbn [fst];
      intros [= <-]; exists 0; cbn [Nat.add]; rewrite F; auto.
  - pose proof (ensure_off_id_synthesized env product w Hid) as E.
    cbv zeta in E.
    destruct (store_fault env (requested w)) eqn:F0.
    + rewrite (bind_run _ _ _ _ _ E).
      unfold bind, insert_meal, throw, ret.
      cbn [requested answered]. cbn [now snd requested].
      destruct (store_fault env (S (requested w))) eqn:F1; cbn [fst];
        intros [= <-]; exists 1; cbn [Nat.add]; rewrite F1; auto.
    + rewrite (bind_run _ _ _ _ _ E).
      unfold bind, insert_meal, throw, ret.
      cbn [requested answered]. cbn [now snd requested].
      destruct (store_fault env (S (requested w))) eqn:F1; cbn [fst];
        intros [= <-]; exists 1; cbn [Nat.add]; rewrite F1; auto.
    + rewrite (bind_throws _ _ _ _ _ E). unfold throw. cbn [fst].
      intros [= <-]. exists 0. cbn [Nat.add]. rewrite F0. auto.
Qed.

Lemma addFoodToMeal_throws_witness :
  exists k,
    k <= 1
    /\ (store_fault (faulty_at 1 (Fails (Error (lit "row violates policy"))))
          (k + requested fresh)
        = Fails (Error (lit "row violates policy"))
        \/ store_fault
             (faulty_at 1 (Fails (Error (lit "row violates policy"))))
             (k + requested fresh)
           = Crashes (Error (lit "row violates policy"))).
Proof.
  apply (addFoodToMeal_throws_store_errors
           (faulty_at 1 (Fails (Error (lit "row violates policy"))))
           (lit "log-1") banana_product (Fin (inject_Z 120)) None fresh
           (Error (lit "row violates policy"))).
  reflexivity.
Defined.

(** X9. Nothing is taken back: when the cache insert for a product without
    [off_id] is carried out and the insert of the meal entry then fails,
    [addFoodToMeal] throws that error, no meal entry is stored, and the
    cache keeps the row under the synthesized identifier. *)
Theorem addFoodToMeal_keeps_cache_row_on_failure
    (env : Env) (logId : jsstring) (product : FoodProduct.t)
    (quantityGrams : number) (mealType : option jsstring) (w : World)
    (e : Thrown) :
  truthy (FoodProduct.off_id product) = false ->
  store_fault env (requested w) = Healthy ->
  (store_fault env (S (requested w)) = Fails e
   \/ store_fault env (S (requested w)) = Crashes e) ->
  let r := addFoodToMeal env logId product quantityGrams mealType w in
  let id := TString (tempIdAt (FoodProduct.name product)
                       (TString (FoodProduct.brand product))
                       (Date_now env (clocked w))) in
  fst r = Throws e
  /\ maltidsinlagg (snd r) = maltidsinlagg w
  /\ livsmedelskache (snd r)
     = livsmedelskache w ++ [cache_row_of_product id product].
Proof.
  intros Hid H0 H1. cbv zeta. unfold addFoodToMeal, try_catch.
  pose proof (ensure_off_id_synthesized env product w Hid) as E.
  cbv zeta in E. rewrite H0 in E.
  rewrite (bind_run _ _ _ _ _ E).
  unfold bind, insert_meal, throw, ret.
  cbn [requested answered]. cbn [now snd requested].
  destruct H1 as [-> | ->];
    cbn [fst snd answered maltidsinlagg livsmedelskache]; auto.
Qed.

Lemma addFoodToMeal_keeps_cache_row_witness :
  let env := faulty_at 1 (Crashes (Error (lit "Failed to fetch"))) in
  let r := addFoodToMeal env (lit "log-1") banana_product
             (Fin (inject_Z 120)) None fresh in
  let id := TString (tempIdAt (FoodProduct.name banana_product)
                       (TString (FoodProduct.brand banana_product))
                       (Date_now env (clocked fresh))) in
  fst r = Throws (Error (lit "Failed to fetch"))
  /\ maltidsinlagg (snd r) = maltidsinlagg fresh
  /\ livsmedelskache (snd r)
     = livsmedelskache fresh ++ [cache_row_of_product id banana_product].
Proof.
  apply (addFoodToMeal_keeps_cache_row_on_failure
           (faulty_at 1 (Crashes (Error (lit "Failed to fetch"))))
           (lit "log-1") banana_product (Fin (inject_Z 120)) None fresh
           (Error (lit "Failed to fetch"))).
  - reflexivity.
  - reflexivity.
  - right. reflexivity.
Defined.

(** X10. The answer to the cache insert is not read: when the store resolves
    it with an error and carries out the next request, [addFoodToMeal]
    returns normally, the cache is as before, and the meal entry is stored
    under the synthesized identifier all the same. *)
Theorem addFoodToMeal_ignores_failed_cache_insert
    (env : Env) (logId : jsstring) (product : FoodProduct.t)
    (quantityGrams : number) (mealType : option jsstring) (w : World)
    (e : Thrown) :
  truthy (FoodProduct.off_id product) = false ->
  store_fault env (requested w) = Fails e ->
  store_fault env (S (requested w)) = Healthy ->
  let r := addFoodToMeal env logId product quantityGrams mealType w in
  let id := TString (tempIdAt (FoodProduct.name product)
                       (TString (FoodProduct.brand product))
                       (Date_now env (clocked w))) in
  fst r = Done tt
  /\ livsmedelskache (snd r) = livsmedelskache w
  /\ maltidsinlagg (snd r)
     = maltidsinlagg w
       ++ [meal_entry env logId product quantityGrams mealType id].
Proof.
  intros Hid H0 H1. cbv zeta. unfold addFoodToMeal, try_catch.
  pose proof (ensure_off_id_synthesized env product w Hid) as E.
  cbv zeta in E. rewrite H0 in E.
  rewrite (bind_run _ _ _ _ _ E).
  unfold bind, insert_meal, meal_entry, throw, ret.
  cbn [requested answered]. cbn [now snd requested]. rewrite H1.
  cbn [fst snd answered maltidsinlagg livsmedelskache]. auto.
Qed.

Lemma addFoodToMeal_ignores_witness :
  let env := faulty_at 0 (Fails (Error (lit "duplicate key"))) in
  let r := addFoodToMeal env (lit "log-1") banana_product
             (Fin (inject_Z 120)) None fresh in
  let id := TString (tempIdAt (FoodProduct.name banana_product)
                       (TString (FoodProduct.brand banana_product))
                       (Date_now env (clocked fresh))) in
  fst r = Done tt
  /\ livsmedelskache (snd r) = livsmedelskache fresh
  /\ maltidsinlagg (snd r)
     = maltidsinlagg fresh
       ++ [meal_entry env (lit "log-1") banana_product (Fin (inject_Z 120))
             None id].
Proof.
  apply (addFoodToMeal_ignores_failed_cache_insert
           (faulty_at 0 (Fails (Error (lit "duplicate key"))))
           (lit "log-1") banana_product (Fin (inject_Z 120)) None fresh
           (Error (lit "duplicate key")));
    reflexivity.
Defined.

(* ------------------------------------------------------------------ *)
(** ** The food diary                                                   *)
(* ------------------------------------------------------------------ *)

Lemma string_eqb_refl (s : jsstring) : string_eqb s s = true.
Proof. apply string_eqb_eq; reflexivity. Qed.

(** X11. Without a signed-in user, [createMeal] and [setUserMacroGoals]
    throw the error "User not authenticated" and [getUserMacroGoals] returns
    null; none of the three sends a request to the store or reads the
    clock. *)
Theorem no_user_no_request (env : Diary.Env) (s : Diary.State)
    (mealName : jsstring) (date : option N) (kcal protein carbs fat : number) :
  Diary.auth_getUser env (Diary.asked s) = Diary.NoUser ->
  let quiet s' := Diary.sent s' = Diary.sent s
                  /\ Diary.dated s' = Diary.dated s
                  /\ tables s' = tables s in
  (fst (Diary.createMeal env mealName date s)
   = Throws (Error Diary.msg_not_authenticated)
   /\ quiet (snd (Diary.createMeal env mealName date s)))
  /\ (fst (Diary.setUserMacroGoals env kcal protein carbs fat s)
      = Throws (Error Diary.msg_not_authenticated)
      /\ quiet (snd (Diary.setUserMacroGoals env kcal protein carbs fat s)))
  /\ (fst (Diary.getUserMacroGoals env s) = Done None
      /\ quiet (snd (Diary.getUserMacroGoals env s))).
Proof.
  intros Hno. cbv zeta.
  unfold Diary.createMeal, Diary.setUserMacroGoals, Diary.getUserMacroGoals,
    Diary.try_catch, Diary.bind, Diary.getUser, Diary.throw, Diary.ret.
  rewrite Hno. cbn. auto 10.
Qed.

Lemma no_user_no_request_witness :
  let env := diary_env Diary.NoUser 0 Healthy in
  let quiet s' := Diary.sent s' = Diary.sent empty_diary
                  /\ Diary.dated s' = Diary.dated empty_diary
                  /\ tables s' = tables empty_diary in
  (fst (Diary.createMeal env (lit "Lunch") None empty_diary)
   = Throws (Error Diary.msg_not_authenticated)
   /\ quiet (snd (Diary.createMeal env (lit "Lunch") None empty_diary)))
  /\ (fst (Diary.setUserMacroGoals env (Fin (inject_Z 2000)) (Fin (inject_Z 150))
             (Fin (inject_Z 200)) (Fin (inject_Z 70)) empty_diary)
      = Throws (Error Diary.msg_not_authenticated)
      /\ quiet (snd (Diary.setUserMacroGoals env (Fin (inject_Z 2000))
                       (Fin (inject_Z 150)) (Fin (inject_Z 200))
                       (Fin (inject_Z 70)) empty_diary)))
  /\ (fst (Diary.getUserMacroGoals env empty_diary) = Done None
      /\ quiet (snd (Diary.getUserMacroGoals env empty_diary))).
Proof.
  apply (no_user_no_request (diary_env Diary.NoUser 0 Healthy) empty_diary
           (lit "Lunch") None (Fin (inject_Z 2000)) (Fin (inject_Z 150))
           (Fin (inject_Z 200)) (Fin (inject_Z 70))).
  reflexivity.
Defined.

Ltac diary_unfold :=
  cbv beta iota zeta delta
    [Diary.createMeal Diary.find_or_create_log Diary.deleteMealItem
     Diary.updateMealItemQuantity
     Diary.getUserMacroGoals Diary.setUserMacroGoals
     Diary.try_catch Diary.bind Diary.throw Diary.ret
     Diary.getUser Diary.newDate Diary.select_log Diary.insert_log
     Diary.select_goals Diary.upsert_goals Diary.maybeSingle
     Diary.delete_item Diary.update_item Diary.write_items
     Diary.unchanged Diary.served log_day tables].

Ltac diary_fields :=
  cbn [fst snd Diary.asked Diary.dated Diary.sent Diary.daglig_matlogg
       Diary.maltidsinlagg Diary.makro_mal] in *.

Lemma logs_of_In (user day : jsstring) (logs : list Diary.DailyLog)
    (row : Diary.DailyLog) :
  In row (Diary.logs_of user day logs) ->
  In row logs /\ Diary.user_id row = user /\ Diary.loggdatum row = day.
Proof.
  unfold Diary.logs_of. intros H. apply filter_In in H as [Hin E].
  apply andb_true_iff in E as [E1 E2].
  apply string_eqb_eq in E1, E2. auto.
Qed.

(** A signed-in user's [createMeal] is the lookup-or-create for the day. *)
Lemma createMeal_signed_in (env : Diary.Env) (mealName : jsstring)
    (date : option N) (s : Diary.State) (user : Diary.User) :
  Diary.auth_getUser env (Diary.asked s) = Diary.SignedIn user ->
  Diary.createMeal env mealName date s
  = Diary.find_or_create_log env (Diary.id user) (log_day env date s)
      (signed_in s (clock_reads date)).
Proof.
  intros Ha.
  cbv beta iota zeta delta
    [Diary.createMeal Diary.try_catch Diary.bind Diary.getUser Diary.newDate
     Diary.ret Diary.throw log_day signed_in clock_reads].
  rewrite Ha.
  destruct date as [d|];
    cbn [Nat.add Diary.asked Diary.dated Diary.sent Diary.daglig_matlogg
         Diary.maltidsinlagg Diary.makro_mal];
    match goal with
    | |- context [Diary.find_or_create_log ?e ?u ?d ?st] =>
        destruct (Diary.find_or_create_log e u d st) as [[?|?] ?]
    end; reflexivity.
Qed.

(** The lookup-or-create, by what the store does and holds. *)
Lemma find_or_create_log_run (env : Diary.Env) (user day : jsstring)
    (s : Diary.State) :
  Diary.find_or_create_log env user day s
  = match Diary.store_fault env (Diary.sent s) with
    | Healthy =>
        match Diary.logs_of user day (Diary.daglig_matlogg s) with
        | [] =>
            match Diary.store_fault env (S (Diary.sent s)) with
            | Healthy =>
                let row := {| Diary.log_id :=
                                Diary.generated_id env (S (Diary.sent s));
                              Diary.user_id := user;
                              Diary.loggdatum := day |} in
                (Done (Diary.log_id row),
                 Diary.served (Diary.unchanged s)
                   (Diary.daglig_matlogg s ++ [row])
                   (Diary.maltidsinlagg s) (Diary.makro_mal s))
            | Fails e => (Throws e, Diary.unchanged (Diary.unchanged s))
            | Crashes e => (Throws e, Diary.unchanged (Diary.unchanged s))
            end
        | [row] => (Done (Diary.log_id row), Diary.unchanged s)
        | _ :: _ :: _ => (Throws (Diary.several_rows env), Diary.unchanged s)
        end
    | Fails e => (Throws e, Diary.unchanged s)
    | Crashes e => (Throws e, Diary.unchanged s)
    end.
Proof.
  cbv beta iota zeta delta
    [Diary.find_or_create_log Diary.bind Diary.select_log Diary.maybeSingle
     Diary.insert_log Diary.ret Diary.throw].
  destruct (Diary.store_fault env (Diary.sent s)); try reflexivity.
  destruct (Diary.logs_of user day (Diary.daglig_matlogg s))
    as [|row [|row' more]]; try reflexivity.
  cbn [Diary.sent Diary.unchanged Diary.served].
  destruct (Diary.store_fault env (S (Diary.sent s))); reflexivity.
Qed.

(** X12. Whatever the auth client and the store do, [createMeal] adds at
    most one daily log and touches no other table.  If it throws, no log
    was added.  If it returns an id, a user is signed in and the table then
    holds a log with that id for that user and for the day of [date] (of
    the clock, if no date is given). *)
Theorem createMeal_answers_a_log_of_the_day
    (env : Diary.Env) (mealName : jsstring) (date : option N)
    (s : Diary.State) :
  let r := Diary.createMeal env mealName date s in
  (exists added,
      Diary.daglig_matlogg (snd r) = Diary.daglig_matlogg s ++ added
      /\ List.length added <= 1)
  /\ Diary.maltidsinlagg (snd r) = Diary.maltidsinlagg s
  /\ Diary.makro_mal (snd r) = Diary.makro_mal s
  /\ (forall e, fst r = Throws e ->
                Diary.daglig_matlogg (snd r) = Diary.daglig_matlogg s)
  /\ (forall logId,
        fst r = Done logId ->
        exists user row,
          Diary.auth_getUser env (Diary.asked s) = Diary.SignedIn user
          /\ In row (Diary.daglig_matlogg (snd r))
          /\ Diary.log_id row = logId
          /\ Diary.user_id row = Diary.id user
          /\ Diary.loggdatum row = log_day env date s).
Proof.
  cbv zeta.
  destruct (Diary.auth_getUser env (Diary.asked s)) as [|user|e] eqn:Ha.
  1,3: diary_unfold; rewrite Ha; diary_fields;
       (split; [exists []; rewrite app_nil_r; auto|]); split_conj; auto;
       discriminate.
  rewrite (createMeal_signed_in env mealName date s user Ha).
  rewrite find_or_create_log_run.
  set (day := log_day env date s).
  cbn [signed_in Diary.sent Diary.daglig_matlogg Diary.maltidsinlagg
       Diary.makro_mal].
  destruct (Diary.store_fault env (Diary.sent s)).
  2,3: diary_fields; cbn;
       (split; [exists []; rewrite app_nil_r; auto|]); split_conj; auto;
       discriminate.
  destruct (Diary.logs_of (Diary.id user) day (Diary.daglig_matlogg s))
    as [|row [|row' more]] eqn:El.
  - destruct (Diary.store_fault env (S (Diary.sent s))); cbv zeta; cbn.
    2,3: (split; [exists []; rewrite app_nil_r; auto|]); split_conj; auto;
         discriminate.
    split; [eexists [_]; split; [reflexivity | cbn; lia]|].
    split_conj; auto; try discriminate.
    intros logId [= <-]. exists user. eexists.
    split; [reflexivity|]. split; [apply in_or_app; right; now left|].
    cbn. auto.
  - cbn. split; [exists []; rewrite app_nil_r; auto|].
    split_conj; auto; try discriminate.
    intros logId [= <-]. exists user, row.
    destruct (logs_of_In (Diary.id user) day (Diary.daglig_matlogg s) row)
      as (Hin & Hu & Hd); [rewrite El; now left | auto].
  - cbn. (split; [exists []; rewrite app_nil_r; auto|]); split_conj; auto;
      discriminate.
Qed.

Lemma logs_of_snoc (user day : jsstring) (logs : list Diary.DailyLog)
    (id : jsstring) :
  Diary.logs_of user day
    (logs ++ [{| Diary.log_id := id; Diary.user_id := user;
                 Diary.loggdatum := day |}])
  = Diary.logs_of user day logs
    ++ [{| Diary.log_id := id; Diary.user_id := user;
           Diary.loggdatum := day |}].
Proof.
  unfold Diary.logs_of. rewrite filter_app. cbn.
  now rewrite !string_eqb_refl.
Qed.

(** X13. With a store that carries out its requests, a signed-in user and at
    most one log of that user for the day, [createMeal] returns the id of
    the user's one log for that day, creating it if there is none.  A second
    call for the same date returns the same id and adds nothing, whatever
    the two meal names are. *)
Theorem createMeal_finds_or_creates_once
    (env : Diary.Env) (name1 name2 : jsstring) (d : N) (s : Diary.State)
    (user : Diary.User) :
  (forall k, Diary.store_fault env k = Healthy) ->
  Diary.auth_getUser env (Diary.asked s) = Diary.SignedIn user ->
  Diary.auth_getUser env (S (Diary.asked s)) = Diary.SignedIn user ->
  List.length (Diary.logs_of (Diary.id user) (Diary.toISODay env d)
                 (Diary.daglig_matlogg s)) <= 1 ->
  let r1 := Diary.createMeal env name1 (Some d) s in
  let r2 := Diary.createMeal env name2 (Some d) (snd r1) in
  exists row,
    fst r1 = Done (Diary.log_id row)
    /\ fst r2 = Done (Diary.log_id row)
    /\ Diary.logs_of (Diary.id user) (Diary.toISODay env d)
         (Diary.daglig_matlogg (snd r1)) = [row]
    /\ Diary.daglig_matlogg (snd r2) = Diary.daglig_matlogg (snd r1).
Proof.
  intros Hhealthy Ha1 Ha2 Hone. cbv zeta.
  rewrite (createMeal_signed_in env name1 (Some d) s user Ha1).
  rewrite find_or_create_log_run, !Hhealthy.
  unfold log_day, clock_reads.
  cbn [signed_in Nat.add Diary.sent Diary.daglig_matlogg
       Diary.maltidsinlagg Diary.makro_mal].
  set (day := Diary.toISODay env d) in *.
  destruct (Diary.logs_of (Diary.id user) day (Diary.daglig_matlogg s))
    as [|row [|row' more]] eqn:El; [| |cbn in Hone; lia].
  - cbv zeta.
    set (row := {| Diary.log_id := Diary.generated_id env (S (Diary.sent s));
                   Diary.user_id := Diary.id user;
                   Diary.loggdatum := day |}).
    exists row. cbn [fst snd].
    match goal with
    | |- context [Diary.createMeal env name2 (Some d) ?s1] =>
        set (s1' := s1);
        assert (Diary.logs_of (Diary.id user) day (Diary.daglig_matlogg s1')
                = [row]) as El1
          by (subst s1' row; cbn [Diary.daglig_matlogg Diary.served];
              now rewrite logs_of_snoc, El);
        rewrite (createMeal_signed_in env name2 (Some d) s1' user Ha2)
    end.
    rewrite find_or_create_log_run, !Hhealthy.
    unfold log_day, clock_reads.
    cbn [signed_in Nat.add Diary.sent
         Diary.daglig_matlogg Diary.maltidsinlagg Diary.makro_mal].
    fold day. rewrite El1. cbn. auto.
  - exists row. cbn [fst snd].
    match goal with
    | |- context [Diary.createMeal env name2 (Some d) ?s1] =>
        set (s1' := s1);
        assert (Diary.logs_of (Diary.id user) day (Diary.daglig_matlogg s1')
                = [row]) as El1 by (subst s1'; exact El);
        rewrite (createMeal_signed_in env name2 (Some d) s1' user Ha2)
    end.
    rewrite find_or_create_log_run, !Hhealthy.
    unfold log_day, clock_reads.
    cbn [signed_in Nat.add Diary.sent
         Diary.daglig_matlogg Diary.maltidsinlagg Diary.makro_mal].
    fold day. rewrite El1. cbn. auto.
Qed.

Lemma createMeal_once_witness :
  let env := diary_env (Diary.SignedIn anna) 9 Healthy in
  let r1 := Diary.createMeal env (lit "Frukost") (Some 1700000000000%N)
              empty_diary in
  let r2 := Diary.createMeal env (lit "Lunch") (Some 1700000000000%N)
              (snd r1) in
  exists row,
    fst r1 = Done (Diary.log_id row)
    /\ fst r2 = Done (Diary.log_id row)
    /\ Diary.logs_of (Diary.id anna) (Diary.toISODay env 1700000000000%N)
         (Diary.daglig_matlogg (snd r1)) = [row]
    /\ Diary.daglig_matlogg (snd r2) = Diary.daglig_matlogg (snd r1).
Proof.
  apply (createMeal_finds_or_creates_once
           (diary_env (Diary.SignedIn anna) 9 Healthy)
           (lit "Frukost") (lit "Lunch") 1700000000000%N empty_diary anna).
  - intros k. cbn. destruct (k =? 9); reflexivity.
  - reflexivity.
  - reflexivity.
  - cbn. lia.
Defined.

(** X14. When the table holds more than one log of the signed-in user for
    the day, [createMeal] throws the error the store answers the lookup
    with; it sends no second request and adds no log. *)
Theorem createMeal_throws_on_doubled_log
    (env : Diary.Env) (mealName : jsstring) (date : option N)
    (s : Diary.State) (user : Diary.User) :
  Diary.auth_getUser env (Diary.asked s) = Diary.SignedIn user ->
  Diary.store_fault env (Diary.sent s) = Healthy ->
  2 <= List.length (Diary.logs_of (Diary.id user) (log_day env date s)
                      (Diary.daglig_matlogg s)) ->
  fst (Diary.createMeal env mealName date s)
  = Throws (Diary.several_rows env)
  /\ Diary.sent (snd (Diary.createMeal env mealName date s))
     = S (Diary.sent s)
  /\ tables (snd (Diary.createMeal env mealName date s)) = tables s.
Proof.
  intros Ha Hf Htwo.
  rewrite (createMeal_signed_in env mealName date s user Ha).
  rewrite find_or_create_log_run.
  cbn [signed_in Diary.sent Diary.daglig_matlogg].
  rewrite Hf.
  destruct (Diary.logs_of (Diary.id user) (log_day env date s)
              (Diary.daglig_matlogg s)) as [|row [|row' more]];
    cbn in Htwo; try lia.
  cbn. auto.
Qed.

Lemma createMeal_doubled_log_witness :
  let env := diary_env (Diary.SignedIn anna) 9 Healthy in
  fst (Diary.createMeal env (lit "Lunch") None doubled_log)
  = Throws (Diary.several_rows env)
  /\ Diary.sent (snd (Diary.createMeal env (lit "Lunch") None doubled_log))
     = S (Diary.sent doubled_log)
  /\ tables (snd (Diary.createMeal env (lit "Lunch") None doubled_log))
     = tables doubled_log.
Proof.
  apply (createMeal_throws_on_doubled_log
           (diary_env (Diary.SignedIn anna) 9 Healthy) (lit "Lunch") None
           doubled_log anna).
  - reflexivity.
  - reflexivity.
  - cbn. lia.
Defined.

(* ------------------------------------------------------------------ *)
(** ** Macro goals                                                      *)
(* ------------------------------------------------------------------ *)

(** X15. [getUserMacroGoals] never throws and never changes a table,
    whatever the auth client and the store do.  It returns goals exactly
    when a user is signed in, the store carries out the lookup and the table
    holds one row for that user, and then they are that row's four values;
    in every other case, failures included, it returns null. *)
Theorem getUserMacroGoals_reads_or_null
    (env : Diary.Env) (s : Diary.State) :
  let r := Diary.getUserMacroGoals env s in
  exists result,
    fst r = Done result
    /\ tables (snd r) = tables s
    /\ (forall g,
          result = Some g <->
          exists user row,
            Diary.auth_getUser env (Diary.asked s) = Diary.SignedIn user
            /\ Diary.store_fault env (Diary.sent s) = Healthy
            /\ Diary.goals_of (Diary.id user) (Diary.makro_mal s) = [row]
            /\ g = goals_read row).
Proof.
  cbv zeta. diary_unfold.
  destruct (Diary.auth_getUser env (Diary.asked s)) as [|user|e] eqn:Ha;
    diary_fields.
  1,3: exists None; split_conj; auto; intros g; split;
       [discriminate | intros (u & row & Hu & _); discriminate].
  destruct (Diary.store_fault env (Diary.sent s)) eqn:Hf; diary_fields.
  2,3: exists None; split_conj; auto; intros g; split;
       [discriminate | intros (u & row & _ & Hx & _); discriminate].
  destruct (Diary.goals_of (Diary.id user) (Diary.makro_mal s))
    as [|row [|row' more]] eqn:Eg; diary_fields.
  - exists None. split_conj; auto. intros g. split; [discriminate|].
    intros (u & row & [= <-] & _ & Hx & _). rewrite Eg in Hx. discriminate.
  - eexists. split_conj; [reflexivity | reflexivity |]. intros g. split.
    + intros [= <-]. exists user, row. auto.
    + intros (u & row0 & [= <-] & _ & Hx & ->). rewrite Eg in Hx.
      now injection Hx as <-.
  - exists None. split_conj; auto. intros g. split; [discriminate|].
    intros (u & row0 & [= <-] & _ & Hx & _). rewrite Eg in Hx. discriminate.
Qed.

Lemma goals_of_replaced (user other : jsstring) (row : Diary.MacroRow)
    (rows : list Diary.MacroRow) :
  Diary.goal_user_id row = user ->
  Diary.goals_of other
    (map (fun r => if string_eqb (Diary.goal_user_id r) user then row else r)
       rows)
  = if string_eqb user other
    then map (fun _ => row) (Diary.goals_of user rows)
    else Diary.goals_of other rows.
Proof.
  intros Hrow. unfold Diary.goals_of.
  induction rows as [|r rows IH]; cbn [map filter].
  - now destruct (string_eqb user other).
  - destruct (string_eqb (Diary.goal_user_id r) user) eqn:E.
    + rewrite Hrow. apply string_eqb_eq in E.
      destruct (string_eqb user other) eqn:E'.
      * cbn [map]. now rewrite IH.
      * rewrite E, E'. exact IH.
    + destruct (string_eqb user other) eqn:E'.
      * apply string_eqb_eq in E'. subst other. rewrite E. exact IH.
      * destruct (string_eqb (Diary.goal_user_id r) other); [|exact IH].
        now rewrite IH.
Qed.

Lemma goals_of_added (user other : jsstring) (row : Diary.MacroRow)
    (rows : list Diary.MacroRow) :
  Diary.goal_user_id row = user ->
  Diary.goals_of other (rows ++ [row])
  = Diary.goals_of other rows
    ++ (if string_eqb user other then [row] else []).
Proof.
  intros Hrow. unfold Diary.goals_of. rewrite filter_app. cbn.
  now rewrite Hrow.
Qed.

(** X16. With a store that carries out the requests and a table keyed by
    user (at most one row of the signed-in user), what [setUserMacroGoals]
    stores is what [getUserMacroGoals] reads next: the four numbers as
    given.  The user then has exactly one row, and the rows of other users
    are as before. *)
Theorem macro_goals_round_trip
    (env : Diary.Env) (s : Diary.State) (user : Diary.User)
    (kcal protein carbs fat : number) :
  Diary.auth_getUser env (Diary.asked s) = Diary.SignedIn user ->
  Diary.auth_getUser env (S (Diary.asked s)) = Diary.SignedIn user ->
  Diary.store_fault env (Diary.sent s) = Healthy ->
  Diary.store_fault env (S (Diary.sent s)) = Healthy ->
  List.length (Diary.goals_of (Diary.id user) (Diary.makro_mal s)) <= 1 ->
  let r1 := Diary.setUserMacroGoals env kcal protein carbs fat s in
  let r2 := Diary.getUserMacroGoals env (snd r1) in
  fst r1 = Done tt
  /\ fst r2 = Done (Some (goals_given kcal protein carbs fat))
  /\ List.length (Diary.goals_of (Diary.id user) (Diary.makro_mal (snd r1)))
     = 1
  /\ (forall other,
        other <> Diary.id user ->
        Diary.goals_of other (Diary.makro_mal (snd r1))
        = Diary.goals_of other (Diary.makro_mal s)).
Proof.
  intros Ha1 Ha2 Hf1 Hf2 Hone. cbv zeta.
  set (row := {| Diary.goal_user_id := Diary.id user;
                 Diary.goals := goals_given kcal protein carbs fat;
                 Diary.updated_at := Diary.new_Date env (Diary.dated s) |}).
  set (rows' := match Diary.goals_of (Diary.id user) (Diary.makro_mal s) with
                | [] => Diary.makro_mal s ++ [row]
                | _ :: _ =>
                    map (fun r => if string_eqb (Diary.goal_user_id r)
                                       (Diary.id user)
                                  then row else r) (Diary.makro_mal s)
                end).
  assert (Diary.setUserMacroGoals env kcal protein carbs fat s
          = (Done tt,
             {| Diary.asked := S (Diary.asked s);
                Diary.dated := S (Diary.dated s);
                Diary.sent := S (Diary.sent s);
                Diary.daglig_matlogg := Diary.daglig_matlogg s;
                Diary.maltidsinlagg := Diary.maltidsinlagg s;
                Diary.makro_mal := rows' |})) as Hset.
  { diary_unfold. rewrite Ha1. diary_fields. rewrite Hf1. reflexivity. }
  assert (forall other,
             Diary.goals_of other rows'
             = if string_eqb (Diary.id user) other then [row]
               else Diary.goals_of other (Diary.makro_mal s)) as Hrows.
  { intros other. subst rows'.
    destruct (Diary.goals_of (Diary.id user) (Diary.makro_mal s))
      as [|r [|r' more]] eqn:Eg; [| |cbn in Hone; lia].
    - rewrite (goals_of_added (Diary.id user)); [|reflexivity].
      destruct (string_eqb (Diary.id user) other) eqn:E.
      + apply string_eqb_eq in E. subst other. now rewrite Eg.
      + now rewrite app_nil_r.
    - rewrite (goals_of_replaced (Diary.id user)); [|reflexivity].
      now rewrite Eg. }
  rewrite Hset. cbn [fst snd Diary.makro_mal].
  split; [reflexivity|]. split.
  - diary_unfold. diary_fields. rewrite Ha2. diary_fields.
    rewrite Hf2, Hrows, string_eqb_refl. reflexivity.
  - split.
    + now rewrite Hrows, string_eqb_refl.
    + intros other Hother. rewrite Hrows.
      destruct (string_eqb (Diary.id user) other) eqn:E; [|reflexivity].
      apply string_eqb_eq in E. congruence.
Qed.

Lemma macro_goals_round_trip_witness :
  let env := diary_env (Diary.SignedIn anna) 9 Healthy in
  let r1 := Diary.setUserMacroGoals env (Fin (inject_Z 2000))
              (Fin (inject_Z 150)) (Fin (inject_Z 200)) (Fin (inject_Z 70))
              empty_diary in
  let r2 := Diary.getUserMacroGoals env (snd r1) in
  fst r1 = Done tt
  /\ fst r2 = Done (Some (goals_given (Fin (inject_Z 2000))
                            (Fin (inject_Z 150)) (Fin (inject_Z 200))
                            (Fin (inject_Z 70))))
  /\ List.length (Diary.goals_of (Diary.id anna) (Diary.makro_mal (snd r1)))
     = 1
  /\ (forall other,
        other <> Diary.id anna ->
        Diary.goals_of other (Diary.makro_mal (snd r1))
        = Diary.goals_of other (Diary.makro_mal empty_diary)).
Proof.
  apply (macro_goals_round_trip (diary_env (Diary.SignedIn anna) 9 Healthy)
           empty_diary anna);
    try reflexivity.
  cbn. lia.
Defined.

(* ------------------------------------------------------------------ *)
(** ** Meal items                                                       *)
(* ------------------------------------------------------------------ *)

Lemma updated_items (itemId : jsstring) (q : number)
    (items : list Diary.MealItem) :
  let items' := map (fun i => if string_eqb (Diary.item_id i) itemId
                              then Diary.with_quantity q i else i) items in
  map Diary.item_id items' = map Diary.item_id items
  /\ (forall i, In i items' -> Diary.item_id i = itemId ->
                MealEntry.antal_gram (Diary.entry i) = q)
  /\ (forall i, Diary.item_id i <> itemId -> (In i items' <-> In i items)).
Proof.
  cbv zeta. induction items as [|x items (IH1 & IH2 & IH3)]; cbn [map In].
  - split_conj; auto; tauto.
  - destruct (string_eqb (Diary.item_id x) itemId) eqn:E.
    + apply string_eqb_eq in E. split_conj.
      * cbn. now rewrite IH1.
      * intros i [<- | Hi] Hid; [reflexivity | now apply IH2].
      * intros i Hne. rewrite IH3 by exact Hne. split.
        -- intros [<- | Hi]; [cbn in Hne; congruence | now right].
        -- intros [<- | Hi]; [congruence | now right].
    + split_conj.
      * now rewrite IH1.
      * intros i [<- | Hi] Hid; [|now apply IH2].
        apply string_eqb_eq in Hid. congruence.
      * intros i Hne. rewrite IH3 by exact Hne. tauto.
Qed.

(** X17. With a store that carries out the request,
    [updateMealItemQuantity] returns normally and stores the quantity as it
    is given, for every number (zero, negative or NaN as well: there is no
    100-gram default here), in the items with the given id.  The items'
    ids and order, the items with other ids and the other tables stay as
    they are. *)
Theorem updateMealItemQuantity_stores_as_given
    (env : Diary.Env) (itemId : jsstring) (quantityGrams : number)
    (s : Diary.State) :
  Diary.store_fault env (Diary.sent s) = Healthy ->
  let r := Diary.updateMealItemQuantity env itemId quantityGrams s in
  fst r = Done tt
  /\ map Diary.item_id (Diary.maltidsinlagg (snd r))
     = map Diary.item_id (Diary.maltidsinlagg s)
  /\ (forall i, In i (Diary.maltidsinlagg (snd r)) ->
                Diary.item_id i = itemId ->
                MealEntry.antal_gram (Diary.entry i) = quantityGrams)
  /\ (forall i, Diary.item_id i <> itemId ->
                (In i (Diary.maltidsinlagg (snd r))
                 <-> In i (Diary.maltidsinlagg s)))
  /\ Diary.daglig_matlogg (snd r) = Diary.daglig_matlogg s
  /\ Diary.makro_mal (snd r) = Diary.makro_mal s.
Proof.
  intros Hf. cbv zeta. diary_unfold. rewrite Hf. diary_fields.
  destruct (updated_items itemId quantityGrams (Diary.maltidsinlagg s))
    as (H1 & H2 & H3).
  split_conj; auto.
Qed.

Lemma updateMealItemQuantity_witness :
  let env := diary_env (Diary.SignedIn anna) 9 Healthy in
  let r := Diary.updateMealItemQuantity env (lit "item-2") (Fin 0)
             two_items in
  fst r = Done tt
  /\ map Diary.item_id (Diary.maltidsinlagg (snd r))
     = map Diary.item_id (Diary.maltidsinlagg two_items)
  /\ (forall i, In i (Diary.maltidsinlagg (snd r)) ->
                Diary.item_id i = lit "item-2" ->
                MealEntry.antal_gram (Diary.entry i) = Fin 0)
  /\ (forall i, Diary.item_id i <> lit "item-2" ->
                (In i (Diary.maltidsinlagg (snd r))
                 <-> In i (Diary.maltidsinlagg two_items)))
  /\ Diary.daglig_matlogg (snd r) = Diary.daglig_matlogg two_items
  /\ Diary.makro_mal (snd r) = Diary.makro_mal two_items.
Proof.
  apply (updateMealItemQuantity_stores_as_given
           (diary_env (Diary.SignedIn anna) 9 Healthy) (lit "item-2") (Fin 0)
           two_items).
  reflexivity.
Defined.

(** X18. When the store does not carry out the request, by resolving with
    an error or by rejecting, [deleteMealItem] and [updateMealItemQuantity]
    throw that very error and the tables are as before. *)
Theorem item_requests_rethrow_store_errors
    (env : Diary.Env) (itemId : jsstring) (quantityGrams : number)
    (s : Diary.State) (e : Thrown) :
  (Diary.store_fault env (Diary.sent s) = Fails e
   \/ Diary.store_fault env (Diary.sent s) = Crashes e) ->
  (fst (Diary.deleteMealItem env itemId s) = Throws e
   /\ tables (snd (Diary.deleteMealItem env itemId s)) = tables s)
  /\ (fst (Diary.updateMealItemQuantity env itemId quantityGrams s) = Throws e
      /\ tables (snd (Diary.updateMealItemQuantity env itemId quantityGrams s))
         = tables s).
Proof.
  intros [Hf | Hf]; diary_unfold; rewrite Hf; diary_fields; auto.
Qed.

Lemma item_requests_rethrow_witness :
  let env := diary_env (Diary.SignedIn anna) 0
               (Fails (Error (lit "permission denied"))) in
  (fst (Diary.deleteMealItem env (lit "item-1") two_items)
   = Throws (Error (lit "permission denied"))
   /\ tables (snd (Diary.deleteMealItem env (lit "item-1") two_items))
      = tables two_items)
  /\ (fst (Diary.updateMealItemQuantity env (lit "item-1")
             (Fin (inject_Z 300)) two_items)
      = Throws (Error (lit "permission denied"))
      /\ tables (snd (Diary.updateMealItemQuantity env (lit "item-1")
                        (Fin (inject_Z 300)) two_items))
         = tables two_items).
Proof.
  apply (item_requests_rethrow_store_errors
           (diary_env (Diary.SignedIn anna) 0
              (Fails (Error (lit "permission denied"))))
           (lit "item-1") (Fin (inject_Z 300)) two_items
           (Error (lit "permission denied"))).
  left. reflexivity.
Defined.

Lemma filter_other_ids_settled (itemId : jsstring)
    (items : list Diary.MealItem) :
  let kept_items := filter (fun i => negb (string_eqb (Diary.item_id i) itemId))
                      items in
  filter (fun i => negb (string_eqb (Diary.item_id i) itemId)) kept_items
  = kept_items
  /\ (forall q,
        map (fun i => if string_eqb (Diary.item_id i) itemId
                      then Diary.with_quantity q i else i) kept_items
        = kept_items).
Proof.
  cbv zeta. induction items as [|x items (IH1 & IH2)]; cbn [filter];
    [split; reflexivity|].
  destruct (string_eqb (Diary.item_id x) itemId) eqn:E; cbn [negb];
    [now split|].
  cbn [filter map]. rewrite E. cbn [negb]. rewrite IH1. split; [reflexivity|].
  intros q. now rewrite IH2.
Qed.

(** X19. With a store that carries out the requests, [deleteMealItem]
    returns normally, whether an item has the id or not; afterwards no item
    has that id, and the items with other ids are the ones there were, in
    their order.  Deleting the id again, or updating its quantity, then
    changes nothing and still returns normally. *)
Theorem deleteMealItem_removes_for_good
    (env : Diary.Env) (itemId : jsstring) (quantityGrams : number)
    (s : Diary.State) :
  Diary.store_fault env (Diary.sent s) = Healthy ->
  Diary.store_fault env (S (Diary.sent s)) = Healthy ->
  let r := Diary.deleteMealItem env itemId s in
  fst r = Done tt
  /\ (forall i, In i (Diary.maltidsinlagg (snd r)) <->
                In i (Diary.maltidsinlagg s) /\ Diary.item_id i <> itemId)
  /\ List.length (Diary.maltidsinlagg (snd r))
     <= List.length (Diary.maltidsinlagg s)
  /\ Diary.daglig_matlogg (snd r) = Diary.daglig_matlogg s
  /\ Diary.makro_mal (snd r) = Diary.makro_mal s
  /\ (fst (Diary.deleteMealItem env itemId (snd r)) = Done tt
      /\ tables (snd (Diary.deleteMealItem env itemId (snd r)))
         = tables (snd r))
  /\ (fst (Diary.updateMealItemQuantity env itemId quantityGrams (snd r))
      = Done tt
      /\ tables (snd (Diary.updateMealItemQuantity env itemId quantityGrams
                        (snd r)))
         = tables (snd r)).
Proof.
  intros Hf1 Hf2. cbv zeta. diary_unfold. rewrite Hf1. diary_fields.
  rewrite Hf2. diary_fields.
  destruct (filter_other_ids_settled itemId (Diary.maltidsinlagg s))
    as (Hd & Hu).
  cbv zeta in Hd, Hu. rewrite Hd, Hu.
  split_conj; auto.
  - intros i. rewrite filter_In, negb_true_iff.
    split; intros [Hin Hne]; split; auto.
    + intros Heq. apply string_eqb_eq in Heq. congruence.
    + destruct (string_eqb (Diary.item_id i) itemId) eqn:E; [|reflexivity].
      apply string_eqb_eq in E. contradiction.
  - apply filter_length_le.
Qed.

Lemma deleteMealItem_witness :
  let env := diary_env (Diary.SignedIn anna) 9 Healthy in
  let r := Diary.deleteMealItem env (lit "item-1") two_items in
  fst r = Done tt
  /\ (forall i, In i (Diary.maltidsinlagg (snd r)) <->
                In i (Diary.maltidsinlagg two_items)
                /\ Diary.item_id i <> lit "item-1")
  /\ List.length (Diary.maltidsinlagg (snd r))
     <= List.length (Diary.maltidsinlagg two_items)
  /\ Diary.daglig_matlogg (snd r) = Diary.daglig_matlogg two_items
  /\ Diary.makro_mal (snd r) = Diary.makro_mal two_items
  /\ (fst (Diary.deleteMealItem env (lit "item-1") (snd r)) = Done tt
      /\ tables (snd (Diary.deleteMealItem env (lit "item-1") (snd r)))
         = tables (snd r))
  /\ (fst (Diary.updateMealItemQuantity env (lit "item-1")
             (Fin (inject_Z 10)) (snd r)) = Done tt
      /\ tables (snd (Diary.updateMealItemQuantity env (lit "item-1")
                        (Fin (inject_Z 10)) (snd r)))
         = tables (snd r)).
Proof.
  apply (deleteMealItem_removes_for_good
           (diary_env (Diary.SignedIn anna) 9 Healthy) (lit "item-1")
           (Fin (inject_Z 10)) two_items);
    reflexivity.
Defined.

(* ------------------------------------------------------------------ *)
(** ** Session recovery                                                 *)
(* ------------------------------------------------------------------ *)

(** X20. [recoverSession] never throws, whatever the auth client does, a
    rejected sign-out included.  It signs out locally exactly when
    [getSession] rejects, and asks for a refresh exactly when [getSession]
    resolves without error with a session that has a refresh token.  It
    returns the session as it is when that has no refresh token or when the
    refresh rejects, the refreshed session when the refresh resolves without
    error, and null in every other case: a refresh that resolves with an
    error loses the session that a rejecting refresh keeps. *)
Theorem recoverSession_never_throws
    (env : Auth.Env) (calls : list Auth.Call) :
  Auth.recoverSession env calls
  = (Done (recovered env), calls ++ recovery_calls env).
Proof.
  unfold Auth.recoverSession, recovered, recovery_calls, Auth.try_catch,
    Auth.bind, Auth.asked, Auth.signOut, Auth.ret.
  destruct (Auth.auth_getSession env) as [e | [session|] [error|]];
    try reflexivity.
  - destruct (Auth.auth_signOut env); now rewrite <- app_assoc.
  - destruct (truthy (Auth.refresh_token session)); [|reflexivity].
    destruct (Auth.auth_refreshSession env) as [e | refreshed [error|]];
      now rewrite <- app_assoc.
Qed.
